(** * VoiceScrambler: frequency-inversion voice scrambling

    A shallow embedding of [ScramblerHelper.py] and [VoiceScrambler.py].

    Conventions of the embedding.
    - Samples are exact rationals ([Q]); the rounding of IEEE doubles and the
      final cast to float32 are not represented.  The only non-finite values
      the program can produce come from the division by a zero peak in
      [write_wav_file]; they are kept apart as [NonFinite].
    - A numpy array is an [ndarray]: one- or two-dimensional.
    - Python exceptions are values of [exn]; a function that may raise returns
      a [result].  Code that prints or writes files runs in the monad [py]
      over a [world] that records the printed lines and the files written.
    - The filter design [scipy.signal.cheby1] and the sine are transcendental;
      they are supplied through the interface [Numerics].  Everything the
      repository itself computes around them is written out. *)

From Stdlib Require Import String Ascii DecimalString DecimalN.
From Stdlib Require Import ZArith QArith Qabs Qround List Bool Lia.
Import ListNotations.

Local Open Scope Z_scope.

(** ** Python runtime: exceptions and results *)

Inductive exn : Type :=
| ValueError
| IndexError
| NameError
| UnboundLocalError
| ZeroDivisionError.

Inductive result (A : Type) : Type :=
| Ok (a : A)
| Raise (e : exn).

Arguments Ok {A} a.
Arguments Raise {A} e.

Definition rbind {A B : Type} (c : result A) (k : A -> result B) : result B :=
  match c with
  | Ok a => k a
  | Raise e => Raise e
  end.

Declare Scope result_scope.
Delimit Scope result_scope with res.
Notation "x <- c ;; k" := (rbind c (fun x => k))
  (at level 61, c at next level, right associativity) : result_scope.

Local Open Scope result_scope.

(** A list comprehension whose body may raise: evaluated left to right. *)
Fixpoint mapM {A B : Type} (f : A -> result B) (l : list A) : result (list B) :=
  match l with
  | [] => Ok []
  | a :: l' => b <- f a ;; bs <- mapM f l' ;; Ok (b :: bs)
  end.

(** [range(n)]: empty when [n <= 0]. *)
Definition range (n : Z) : list Z := map Z.of_nat (seq 0 (Z.to_nat n)).

(** [l[i]] on a Python list: negative indices count from the end, anything
    outside raises IndexError. *)
Definition getitem {A : Type} (l : list A) (i : Z) : result A :=
  let n := Z.of_nat (length l) in
  let j := if i <? 0 then i + n else i in
  if (0 <=? j) && (j <? n)
  then match nth_error l (Z.to_nat j) with
       | Some a => Ok a
       | None => Raise IndexError
       end
  else Raise IndexError.

(** [int(x)] on a float: truncation toward zero. *)
Definition int_of_float (q : Q) : Z := Z.quot (Qnum q) (Z.pos (Qden q)).

(** ** numpy arrays *)

Inductive ndarray (A : Type) : Type :=
| Arr1 (v : list A)
| Arr2 (m : list (list A)).

Arguments Arr1 {A} v.
Arguments Arr2 {A} m.

Definition signal : Type := ndarray Q.

Definition flatten {A : Type} (a : ndarray A) : list A :=
  match a with
  | Arr1 v => v
  | Arr2 m => concat m
  end.

Definition np_map {A B : Type} (f : A -> B) (a : ndarray A) : ndarray B :=
  match a with
  | Arr1 v => Arr1 (map f v)
  | Arr2 m => Arr2 (map (map f) m)
  end.

Definition Qsum (xs : list Q) : Q := fold_right Qplus 0%Q xs.

(** [np.mean]: over all the elements.  Of an empty array it is nan (with a
    warning, no exception); no sample of an empty array ever uses it. *)
Definition np_mean (a : signal) : Q :=
  (Qsum (flatten a) / inject_Z (Z.of_nat (length (flatten a))))%Q.

Definition Qmax (a b : Q) : Q := if Qle_bool a b then b else a.

(** [np.max]: the largest element; ValueError on an empty array. *)
Definition np_max (a : signal) : result Q :=
  match flatten a with
  | [] => Raise ValueError
  | x :: xs => Ok (fold_left Qmax xs x)
  end.

(** Broadcasting of one axis: equal lengths pair up, a length of one is
    stretched, anything else is a shape error. *)
Fixpoint zipM {A B C : Type} (f : A -> B -> result C) (xs : list A) (ys : list B)
  : result (list C) :=
  match xs, ys with
  | x :: xs', y :: ys' => c <- f x y ;; cs <- zipM f xs' ys' ;; Ok (c :: cs)
  | _, _ => Ok []
  end.

Definition bcast {A B C : Type} (f : A -> B -> result C) (xs : list A) (ys : list B)
  : result (list C) :=
  if Nat.eqb (length xs) (length ys) then zipM f xs ys
  else match xs, ys with
       | [x], _ => mapM (f x) ys
       | _, [y] => mapM (fun x => f x y) xs
       | _, _ => Raise ValueError
       end.

Definition mul1 (xs ys : list Q) : result (list Q) :=
  bcast (fun x y => Ok (x * y)%Q) xs ys.

(** [a * b] on arrays. *)
Definition np_mul (a b : signal) : result signal :=
  match a, b with
  | Arr1 x, Arr1 y => v <- mul1 x y ;; Ok (Arr1 v)
  | Arr2 x, Arr1 y => m <- bcast mul1 x [y] ;; Ok (Arr2 m)
  | Arr1 x, Arr2 y => m <- bcast mul1 [x] y ;; Ok (Arr2 m)
  | Arr2 x, Arr2 y => m <- bcast mul1 x y ;; Ok (Arr2 m)
  end.

(** [np.linspace(0, stop, num)]. *)
Definition np_linspace0 (stop : Q) (num : nat) : list Q :=
  map (fun i => (inject_Z (Z.of_nat i) * (stop / inject_Z (Z.of_nat (num - 1))))%Q)
      (seq 0 num).

Fixpoint all_same_length {A : Type} (n : nat) (rows : list (list A)) : bool :=
  match rows with
  | [] => true
  | r :: rows' => Nat.eqb (length r) n && all_same_length n rows'
  end.

Definition rows_of {A : Type} (a : ndarray A) : list (list A) :=
  match a with
  | Arr1 v => [v]
  | Arr2 m => m
  end.

(** [np.vstack]: every array becomes rows (a 1-D array is one row) and the
    rows are stacked; no arrays, or rows of different lengths, raise
    ValueError. *)
Definition np_vstack {A : Type} (arrs : list (ndarray A)) : result (ndarray A) :=
  match concat (map rows_of arrs) with
  | [] => Raise ValueError
  | r :: rows =>
      if all_same_length (length r) rows then Ok (Arr2 (r :: rows))
      else Raise ValueError
  end.

(** ** scipy.signal: filters as cascaded second-order sections *)

(** One section [b0 b1 b2 1 a1 a2]. *)
Record section : Type := { b0 : Q; b1 : Q; b2 : Q; a1 : Q; a2 : Q }.

Definition sos : Type := list section.

(** One section in transposed direct form II, from the state [(z0, z1)]. *)
Fixpoint biquad (s : section) (z0 z1 : Q) (x : list Q) : list Q :=
  match x with
  | [] => []
  | xn :: x' =>
      let y := (b0 s * xn + z0)%Q in
      y :: biquad s (b1 s * xn - a1 s * y + z1)%Q (b2 s * xn - a2 s * y)%Q x'
  end.

Definition sosfilt1 (filt : sos) (x : list Q) : list Q :=
  fold_left (fun x s => biquad s 0%Q 0%Q x) filt x.

(** [sg.sosfilt(filt, x)]: along the last axis, zero initial state. *)
Definition sosfilt (filt : sos) (x : signal) : signal :=
  match x with
  | Arr1 v => Arr1 (sosfilt1 filt v)
  | Arr2 m => Arr2 (map (sosfilt1 filt) m)
  end.

Inductive btype : Type := Bandpass | Lowpass.

(** What the repository takes from scipy and numpy without computing it:
    the coefficients of a Chebyshev type I design for valid critical
    frequencies, and [x |-> sin(2 pi x)]. *)
Class Numerics : Type := {
  cheby1_design : Z -> Q -> list Z -> btype -> Z -> sos;
  sin2pi : Q -> Q
}.

Definition increasing (Wn : list Z) : bool :=
  match Wn with
  | [lo; hi] => lo <? hi
  | _ => true
  end.

(** [sg.cheby1(N, rp, Wn, btype, output='sos', fs=fs)]: scipy raises
    ValueError unless every critical frequency lies strictly between 0 and
    [fs/2], and the two edges of a band are increasing. *)
Definition cheby1 `{Numerics} (N : Z) (rp : Q) (Wn : list Z) (bt : btype) (fs : Z)
  : result sos :=
  if forallb (fun w => 0 <? w) Wn && increasing Wn
     && forallb (fun w => 2 * w <? fs) Wn
  then Ok (cheby1_design N rp Wn bt fs)
  else Raise ValueError.

(** Python slicing [l[a:b]]: indices are clipped, negative ones count from
    the end. *)
Definition slice_index (len i : Z) : Z :=
  if i <? 0 then Z.max (i + len) 0 else Z.min i len.

Definition py_slice {A : Type} (l : list A) (a b : Z) : list A :=
  let n := Z.of_nat (length l) in
  let a' := slice_index n a in
  let b' := slice_index n b in
  firstn (Z.to_nat (b' - a')) (skipn (Z.to_nat a') l).

Definition np_slice {A : Type} (x : ndarray A) (a b : Z) : ndarray A :=
  match x with
  | Arr1 v => Arr1 (py_slice v a b)
  | Arr2 m => Arr2 (py_slice m a b)
  end.

(** [enumerate(xs)]. *)
Definition enumerate {A : Type} (xs : list A) : list (Z * A) :=
  combine (range (Z.of_nat (length xs))) xs.

(** ** ScramblerHelper.py *)

Section ScramblerHelper.

Context `{Numerics}.

Definition standard_carriers : list Z :=
  [2632; 2718; 2868; 3023; 3196; 3339; 3495; 3729].

(** The loop of [getfilts], over the values [b] of [range(n)], with the
    running lower edge [s] and the filters built so far.  [mk s hi] is the
    call that builds the filter of the band [(s, hi)]. *)
Fixpoint getfilts_loop {F : Type} (mk : Z -> Z -> result F) (step : Z)
  (bs : list Z) (s : Z) (filts : list F) : result (list F) :=
  match bs with
  | [] => Ok filts
  | b :: bs' =>
      let up := (b + 1) * step in
      f <- mk s (up - 1) ;;
      getfilts_loop mk step bs' up (filts ++ [f])
  end.

(** [step = int((fs / 2) / n)]: a float division, which raises
    ZeroDivisionError for [n = 0], truncated toward zero. *)
Definition getfilts_with {F : Type} (mk : Z -> Z -> result F) (n fs : Z)
  : result (list F) :=
  if n =? 0 then Raise ZeroDivisionError
  else getfilts_loop mk (Z.quot fs (2 * n)) (range n) 1 [].

Definition getfilts (n fs : Z) : result (list sos) :=
  getfilts_with (fun s hi => cheby1 5 4%Q [s; hi] Bandpass fs) n fs.

(** The same loop, recording the pair of cutoffs handed to [sg.cheby1] for
    each band instead of designing the filter. *)
Definition getfilts_cutoffs (n fs : Z) : result (list (Z * Z)) :=
  getfilts_with (fun s hi => Ok (s, hi)) n fs.

(** [np.abs(lb.stft(x, hop_length=hl))]: the module never binds [lb]. *)
Definition spectrum (x : signal) (hl : Z) : result signal :=
  Raise NameError.

Definition bandspec (xs : list signal) (hl : Z) : result (list signal) :=
  let n := Z.of_nat (length xs) in
  if n =? 0 then Raise ZeroDivisionError
  else
    let step := Z.quot hl n in
    let f := map (fun i => (i * step, ((i + 1) * step) - 1)) (range n) in
    mapM (fun ix : Z * signal =>
            sp <- spectrum (snd ix) hl ;;
            fi <- getitem f (fst ix) ;;
            Ok (np_slice sp (fst fi) (snd fi)))
         (enumerate xs).

Definition remove_dc (sig : signal) : signal :=
  np_map (fun x => (x - np_mean sig)%Q) sig.

Definition lpfilter (cutoff fs : Z) : result sos :=
  cheby1 5 4%Q [cutoff] Lowpass fs.

Definition invert (sig carrier : signal) (filt : sos) : result signal :=
  let prefilter := sosfilt filt sig in
  inv_signal <- np_mul sig carrier ;;
  let postfilter := sosfilt filt inv_signal in
  Ok postfilter.

(** [np.sin(f * (2 * np.pi) * t)]. *)
Definition carrier (f : Z) (t : signal) : signal :=
  np_map (fun ti => sin2pi (inject_Z f * ti)%Q) t.

Definition generate_carriers (num_bands : Z) (t : signal) : result (list signal) :=
  mapM (fun i =>
          let n := i mod Z.of_nat (length standard_carriers) in
          f <- getitem standard_carriers n ;;
          Ok (carrier f t))
       (range num_bands).

Definition generate_lpfilters (num_bands fs : Z) : result (list sos) :=
  mapM (fun i =>
          let n := i mod Z.of_nat (length standard_carriers) in
          f <- getitem standard_carriers n ;;
          lpfilter f fs)
       (range num_bands).

Definition bandsplit (sig : signal) (num_bands fs : Z) : result (list signal) :=
  filts <- getfilts num_bands fs ;;
  let bands := map (fun f => sosfilt f sig) filts in
  bandspec bands 1024.

Definition shuffle {A : Type} (bands : list A) (book : list Z) : result (list A) :=
  mapM (fun i => getitem bands i) book.

Definition bandunsplit (bands : list signal) : result signal :=
  np_vstack bands.

End ScramblerHelper.

(** ** Python strings: [str.split] and [int] *)

(** [s.split(sep)] for a one-character separator. *)
Fixpoint split_on (sep : ascii) (s : string) : list string :=
  match s with
  | EmptyString => [EmptyString]
  | String c s' =>
      if Ascii.eqb c sep then EmptyString :: split_on sep s'
      else match split_on sep s' with
           | h :: t => String c h :: t
           | [] => [String c EmptyString]
           end
  end.

(** Whitespace that [int] strips from both ends (ASCII). *)
Definition is_space (c : ascii) : bool :=
  let n := Z.of_N (N_of_ascii c) in
  ((9 <=? n) && (n <=? 13)) || ((28 <=? n) && (n <=? 32)).

Fixpoint lstrip (s : string) : string :=
  match s with
  | EmptyString => EmptyString
  | String c s' => if is_space c then lstrip s' else s
  end.

Fixpoint rstrip (s : string) : string :=
  match s with
  | EmptyString => EmptyString
  | String c s' =>
      match rstrip s' with
      | EmptyString => if is_space c then EmptyString else String c EmptyString
      | r => String c r
      end
  end.

(** Underscores may stand singly between digits; they are dropped. *)
Fixpoint drop_underscores (s : string) (after_digit : bool) : option string :=
  match s with
  | EmptyString => if after_digit then Some EmptyString else None
  | String c s' =>
      if Ascii.eqb c "_"%char
      then if after_digit then drop_underscores s' false else None
      else option_map (String c) (drop_underscores s' true)
  end.

Definition int_of_digits (s : string) : result Z :=
  match drop_underscores s false with
  | None => Raise ValueError
  | Some ds =>
      match NilEmpty.uint_of_string ds with
      | Some d => Ok (Z.of_N (N.of_uint d))
      | None => Raise ValueError
      end
  end.

(** [int(s)] on a string: optional blanks, an optional sign, decimal digits;
    anything else raises ValueError. *)
Definition py_int (s : string) : result Z :=
  match rstrip (lstrip s) with
  | String c ds =>
      if Ascii.eqb c "-" then rbind (int_of_digits ds) (fun n => Ok (- n))
      else if Ascii.eqb c "+" then int_of_digits ds
      else int_of_digits (String c ds)
  | EmptyString => int_of_digits EmptyString
  end.

(** ** The world of a run: printed lines and written files *)

(** A sample as written to a float wav file: the quotient of a sample by the
    peak, or what IEEE division by a zero peak leaves (nan or an infinity). *)
Inductive f32 : Type :=
| Finite (q : Q)
| NonFinite.

Record wav : Type := {
  wav_name : string;
  wav_rate : Z;
  wav_data : ndarray f32
}.

(** A printed line: a fixed text, or one of the two formatted reports, kept
    with the values that are formatted into it. *)
Inductive line : Type :=
| Text (s : string)
| SpeechParameters (Fs : Z) (Ts duration : Q)
| ScramblerParameters (rate : Q) (bands : Z) (mode_string : string).

Record world : Type := {
  stdout : list line;
  wavs : list wav
}.

Definition py (A : Type) : Type := world -> result A * world.

Definition ret {A : Type} (a : A) : py A := fun w => (Ok a, w).

Definition bind {A B : Type} (c : py A) (k : A -> py B) : py B :=
  fun w =>
    match c w with
    | (Ok a, w') => k a w'
    | (Raise e, w') => (Raise e, w')
    end.

Definition lift {A : Type} (r : result A) : py A := fun w => (r, w).

Declare Scope py_scope.
Delimit Scope py_scope with py.
Notation "x <- c ;; k" := (bind c (fun x => k))
  (at level 61, c at next level, right associativity) : py_scope.
Notation "c ;; k" := (bind c (fun _ => k))
  (at level 61, right associativity) : py_scope.

Definition print (l : line) : py unit :=
  fun w => (Ok tt, {| stdout := stdout w ++ [l]; wavs := wavs w |}).

(** [wavfile.write(name, Fs, data)]. *)
Definition wavfile_write (name : string) (Fs : Z) (data : ndarray f32) : py unit :=
  fun w =>
    (Ok tt,
     {| stdout := stdout w;
        wavs := wavs w ++ [{| wav_name := name; wav_rate := Fs; wav_data := data |}] |}).

(** Reading a local variable that an untaken branch left unassigned. *)
Definition local {A : Type} (v : option A) : py A :=
  match v with
  | Some a => ret a
  | None => lift (Raise UnboundLocalError)
  end.

(** ** VoiceScrambler.py *)

Local Open Scope py_scope.

Definition debug_print (msg : line) (debug : bool) : py unit :=
  if debug then print msg else ret tt.

(** The list [[Fs, Ts, duration, x, t]] that [read_wav_file] returns. *)
Record speech_parameters : Type := {
  sp_Fs : Z;
  sp_Ts : Q;
  sp_duration : Q;
  sp_x : signal;
  sp_t : signal
}.

(** [read_wav_file], from the decoded content [(Fs, x)] of a mono file. *)
Definition read_wav_file (Fs : Z) (x : list Q) : result speech_parameters :=
  if Fs =? 0 then Raise ZeroDivisionError
  else
    let Ts := (1 / inject_Z Fs)%Q in
    let duration := (inject_Z (Z.of_nat (length x)) / inject_Z Fs)%Q in
    let t := np_linspace0 duration (length x) in
    Ok {| sp_Fs := Fs; sp_Ts := Ts; sp_duration := duration;
          sp_x := Arr1 x; sp_t := Arr1 t |}.

(** [file[:-4]]. *)
Definition strip_wav (file : string) : string :=
  substring 0 (String.length file - 4) file.

(** [x / m] as numpy divides: no exception for [m = 0]. *)
Definition np_div (m x : Q) : f32 :=
  if Qeq_bool m 0 then NonFinite else Finite (x / m)%Q.

Definition write_wav_file (sig : signal) (file : string) (Fs : Z) (invert_flag : bool)
  : py unit :=
  let wavfile_out_name :=
    if invert_flag then (strip_wav file ++ "scrambled.wav")%string
    else (strip_wav file ++ "descrambled.wav")%string in
  m <- lift (np_max sig) ;;
  let signalf32 := np_map (np_div m) sig in
  wavfile_write wavfile_out_name Fs signalf32.

Definition determine_rate (rate_fractional : string) (duration : Q) : py Q :=
  p0 <- lift (getitem (split_on "/" rate_fractional) 0) ;;
  num_changes <- lift (py_int p0) ;;
  p1 <- lift (getitem (split_on "/" rate_fractional) 1) ;;
  seconds <- lift (py_int p1) ;;
  if (num_changes =? 0) || (seconds =? 0) then ret 0%Q
  else
    let rate := (inject_Z seconds / inject_Z num_changes)%Q in
    if negb (Qle_bool (1 # 2) rate) then
      print (Text "Invalid rate. Rate must not exceed 2 permutation changes per second.") ;;
      ret (-1)%Q
    else if Qle_bool duration rate then
      print (Text "Invalid rate. Rate must either be 0 or change at least once within duration of speech.") ;;
      ret (-1)%Q
    else ret rate.

Definition determine_num_permutations (rate duration : Q) : Z :=
  if Qeq_bool rate 0 then 1
  else int_of_float (duration / rate)%Q.

Definition check_mode (mode : Z) : py Z :=
  if (mode <? 0) || (mode >? 2) then
    print (Text "Invalide mode! Valid Options = 0, 1, 2") ;;
    ret (-1)
  else ret 0.

Definition check_bands (bands : Z) : Z :=
  if bands <? 0 then -1 else 0.

Section VoiceScrambler.

Context `{Numerics}.

(** The loop [for i in range(0, len(speech_band_split))] that inverts band
    [i] with carrier [i] and low-pass filter [i]. *)
Definition invert_bands (speech_band_split carriers : list signal) (lpfs : list sos)
  : result (list signal) :=
  mapM (fun i =>
          (b <- getitem speech_band_split i ;;
           c <- getitem carriers i ;;
           f <- getitem lpfs i ;;
           invert b c f)%res)
       (range (Z.of_nat (length speech_band_split))).

(** [scrambler], with the band splitter as a parameter [split]; the program
    runs it with [bandsplit] (see [scrambler]). *)
Definition scrambler_with (split : signal -> Z -> Z -> result (list signal))
  (mode : Z) (filename : string) (speech_parameters : speech_parameters)
  (rate : Q) (bands : Z) (debug : bool) : py unit :=
  debug_print (Text "Application starting...") debug ;;
  let Fs := sp_Fs speech_parameters in
  let Ts := sp_Ts speech_parameters in
  let duration := sp_duration speech_parameters in
  let speech_original := sp_x speech_parameters in
  let time_vector := sp_t speech_parameters in
  let mode_string :=
    if mode =? 0 then Some "Direct"%string
    else if mode =? 1 then Some "Gap Detection"%string
    else if mode =? 2 then Some "Combo"%string
    else None in
  debug_print (SpeechParameters Fs Ts duration) debug ;;
  mode_str <- local mode_string ;;
  debug_print (ScramblerParameters rate bands mode_str) debug ;;
  let speech_dc_removed := remove_dc speech_original in
  debug_print (Text "DC offset removed from signal.") debug ;;
  let num_perms := determine_num_permutations rate duration in
  (if mode =? 0 then ret tt
   else if mode =? 1 then ret tt
   else if mode =? 2 then ret tt
   else ret tt) ;;
  debug_print (Text "Signal split in time based on given rate.") debug ;;
  speech_band_split <-
    lift (if bands >? 1 then split speech_dc_removed bands Fs
          else Ok [speech_dc_removed]) ;;
  debug_print (Text "Signal split into requested number of bands.") debug ;;
  carriers <- lift (generate_carriers bands time_vector) ;;
  lpfs <- lift (generate_lpfilters bands Fs) ;;
  debug_print (Text "Carriers and associated low pass filters generated.") debug ;;
  speech_inverted_bands <- lift (invert_bands speech_band_split carriers lpfs) ;;
  speech_scrambled_var <-
    lift (if bands >? 1 then Ok None
          else rbind (getitem speech_inverted_bands 0) (fun b => Ok (Some b))) ;;
  debug_print (Text "Signal scrambled via voice inversion.") debug ;;
  speech_scrambled <- local speech_scrambled_var ;;
  write_wav_file speech_scrambled filename Fs true ;;
  debug_print (Text "Scrambled signal output to wav file.") debug ;;
  let speech_dc_removed := remove_dc speech_scrambled in
  speech_band_split <-
    lift (if bands >? 1 then split speech_dc_removed bands Fs
          else Ok [speech_dc_removed]) ;;
  speech_deinverted_bands <- lift (invert_bands speech_band_split carriers lpfs) ;;
  speech_descrambled_var <-
    lift (if bands >? 1 then Ok None
          else rbind (getitem speech_deinverted_bands 0) (fun b => Ok (Some b))) ;;
  debug_print (Text "Signal descrambled via voice inversion.") debug ;;
  speech_descrambled <- local speech_descrambled_var ;;
  write_wav_file speech_descrambled filename Fs false ;;
  debug_print (Text "Descrambled signal output to wav file.") debug.

Definition scrambler : Z -> string -> speech_parameters -> Q -> Z -> bool -> py unit :=
  scrambler_with bandsplit.

(** The parsed command line. *)
Record arguments : Type := {
  arg_mode : Z;
  arg_file : string;
  arg_rate : string;
  arg_band : Z;
  arg_debug : Z
}.

(** [main], given the parsed arguments and the decoded content of the input
    file.  It returns 0 after an argument error and None otherwise. *)
Definition main (args : arguments) (Fs : Z) (x : list Q) : py (option Z) :=
  speech_parameters <- lift (read_wav_file Fs x) ;;
  rate <- determine_rate (arg_rate args) (sp_duration speech_parameters) ;;
  let band_check := check_bands (arg_band args) in
  mode_check <- check_mode (arg_mode args) ;;
  if negb (Qle_bool 0 rate) || (band_check <? 0) || (mode_check <? 0) then
    print (Text "Argument error detected. Exiting...") ;;
    ret (Some 0)
  else
    let debug := negb (arg_debug args =? 0) in
    scrambler (arg_mode args) (arg_file args) speech_parameters rate (arg_band args) debug ;;
    ret None.

End VoiceScrambler.

(** ** Definitions used to state the properties *)

Local Close Scope py_scope.
Local Open Scope result_scope.

(** An instance of [Numerics] on which the model runs: one fixed section for
    every design, and the identity in place of the sine. *)
Definition sample_numerics : Numerics := {|
  cheby1_design := fun _ _ _ _ _ =>
    [{| b0 := 1 # 4; b1 := 1 # 2; b2 := 1 # 4; a1 := - (1 # 2); a2 := 1 # 4 |}];
  sin2pi := fun x => x
|}.

Definition empty_world : world := {| stdout := []; wavs := [] |}.

(** The sample-wise product of two waveforms of one length. *)
Definition product_samplewise (x c : list Q) : list Q :=
  map (fun p => (fst p * snd p)%Q) (combine x c).

(** The sample-wise sum of a list of waveforms, as the specification words
    the recombination of bands: sample [k] of the result is the sum of the
    samples [k] of the bands. *)
Fixpoint sum_samplewise (bands : list (list Q)) : list Q :=
  match bands with
  | [] => []
  | [b] => b
  | b :: rest => map (fun p => (fst p + snd p)%Q) (combine b (sum_samplewise rest))
  end.

(** The Reassembler's [combine] of the specification, from the two helpers
    the source provides for it: reorder with [shuffle], then recombine with
    [bandunsplit]. *)
Definition combine_bands (invertedBands : list signal) (permutation : list Z)
  : result signal :=
  reordered <- shuffle invertedBands permutation ;;
  bandunsplit reordered.

(** The cutoffs of band [b] for a given [step]. *)
Definition band_edge (step b : Z) : Z * Z :=
  (if b =? 0 then 1 else b * step, (b + 1) * step - 1).

(** The decimal numeral of a natural number, and the rate string ["c/s"]. *)
Definition decimal (n : N) : string := NilEmpty.string_of_uint (N.to_uint n).


Definition is_digit (c : ascii) : bool :=
  let n := Z.of_N (N_of_ascii c) in (48 <=? n) && (n <=? 57).

Fixpoint all_digits (s : string) : bool :=
  match s with
  | EmptyString => true
  | String c s' => is_digit c && all_digits s'
  end.

(** [yields c q files]: from every world, [c] ends with the outcome [q]
    after writing exactly [files], in that order. *)
Definition yields {A : Type} (c : py A) (q : result A) (files : list wav) : Prop :=
  forall w, fst (c w) = q /\ wavs (snd (c w)) = wavs w ++ files.

(** [aborts c]: every run of [c] ends in an exception and writes nothing. *)
Definition aborts {A : Type} (c : py A) : Prop :=
  exists e, yields c (Raise e) [].

(** [agree c1 c2]: started from worlds that hold the same files, the two
    programs end with the same outcome and the same files; the printed
    lines may differ. *)
Definition agree {A : Type} (c1 c2 : py A) : Prop :=
  forall w1 w2, wavs w1 = wavs w2 ->
    fst (c1 w1) = fst (c2 w2) /\ wavs (snd (c1 w1)) = wavs (snd (c2 w2)).

(** [remove_dc] on a waveform. *)
Definition remove_dc1 (v : list Q) : list Q :=
  map (fun x => (x - np_mean (Arr1 v))%Q) v.

(** One pass over a single band with carrier [c] and low-pass filter [f]:
    DC removal, product with the carrier, low-pass filter. *)
Definition inversion_pass (c : list Q) (f : sos) (v : list Q) : list Q :=
  sosfilt1 f (product_samplewise (remove_dc1 v) c).

(** The carrier and the low-pass filter of band 0 for [n] samples at the
    rate [Fs]. *)
Definition carrier0 `{Numerics} (Fs : Z) (n : nat) : list Q :=
  map (fun ti => sin2pi (inject_Z 2632 * ti)%Q)
      (np_linspace0 (inject_Z (Z.of_nat n) / inject_Z Fs)%Q n).

Definition lowpass0 `{Numerics} (Fs : Z) : sos :=
  cheby1_design 5 4%Q [2632] Lowpass Fs.

(** The file [write_wav_file] writes for the buffer [v] with peak [m]. *)
Definition written (file suffix : string) (Fs : Z) (m : Q) (v : list Q) : wav :=
  {| wav_name := (strip_wav file ++ suffix)%string;
     wav_rate := Fs;
     wav_data := Arr1 (map (np_div m) v) |}.


Definition all_zero (v : list Q) : Prop := Forall (fun q => (q == 0)%Q) v.

(** The indices that a Python list of length [n] accepts: [-n <= i < n]. *)
Definition index_ok (n : nat) (i : Z) : bool :=
  (- Z.of_nat n <=? i) && (i <? Z.of_nat n).

(** [quiet c]: no run of [c] writes a file. *)
Definition quiet {A : Type} (c : py A) : Prop :=
  forall w, wavs (snd (c w)) = wavs w.


(** ** Carrier inversion *)

Lemma zipM_total (x c : list Q) :
  zipM (fun a b => Ok (a * b)%Q) x c = Ok (product_samplewise x c).
Proof.
  revert c; induction x as [|a x IH]; intros [|b c]; simpl; try reflexivity.
  unfold product_samplewise in *; rewrite IH; reflexivity.
Qed.

Lemma mul1_same_length (x c : list Q) :
  length x = length c -> mul1 x c = Ok (product_samplewise x c).
Proof.
  intros Hlen; unfold mul1, bcast.
  rewrite Hlen, Nat.eqb_refl; apply zipM_total.
Qed.

(** On two waveforms of one length [invert] filters the sample-wise
    product. *)
Lemma invert_waveform (x c : list Q) (filt : sos) :
  length x = length c ->
  invert (Arr1 x) (Arr1 c) filt = Ok (Arr1 (sosfilt1 filt (product_samplewise x c))).
Proof.
  intros Hlen; unfold invert; simpl.
  rewrite (mul1_same_length x c Hlen); reflexivity.
Qed.



(** ** Reordering and recombining bands *)

Lemma getitem_in_range {A : Type} (l : list A) (i : Z) :
  0 <= i < Z.of_nat (length l) ->
  exists a, getitem l i = Ok a /\ nth_error l (Z.to_nat i) = Some a.
Proof.
  intros Hi; unfold getitem.
  replace (i <? 0) with false by (symmetry; apply Z.ltb_ge; lia).
  replace (0 <=? i) with true by (symmetry; apply Z.leb_le; lia).
  replace (i <? Z.of_nat (length l)) with true by (symmetry; apply Z.ltb_lt; lia).
  simpl.
  destruct (nth_error l (Z.to_nat i)) as [a|] eqn:E.
  - exists a; split; reflexivity.
  - apply nth_error_None in E; lia.
Qed.

Lemma getitem_nth {A : Type} (l : list A) (i : Z) (d : A) :
  0 <= i < Z.of_nat (length l) -> getitem l i = Ok (nth (Z.to_nat i) l d).
Proof.
  intros Hi; destruct (getitem_in_range l i Hi) as (a & -> & Hn).
  f_equal; symmetry; apply nth_error_nth; exact Hn.
Qed.

(** [shuffle] puts at position [i] the band with index [book[i]]. *)
Lemma shuffle_reorders {A : Type} (bands : list A) (book : list Z) (d : A) :
  Forall (fun i => 0 <= i < Z.of_nat (length bands)) book ->
  shuffle bands book = Ok (map (fun i => nth (Z.to_nat i) bands d) book).
Proof.
  unfold shuffle; induction 1 as [|i book Hi _ IH]; simpl.
  - reflexivity.
  - rewrite (getitem_nth bands i d Hi); simpl; rewrite IH; reflexivity.
Qed.

Lemma all_same_length_Forall {A : Type} (n : nat) (rows : list (list A)) :
  Forall (fun r => length r = n) rows -> all_same_length n rows = true.
Proof.
  induction 1 as [|r rows Hr _ IH]; simpl.
  - reflexivity.
  - rewrite Hr, Nat.eqb_refl, IH; reflexivity.
Qed.

Lemma rows_of_waveforms {A : Type} (rows : list (list A)) :
  concat (map rows_of (map Arr1 rows)) = rows.
Proof.
  induction rows as [|r rows IH]; simpl; [reflexivity | rewrite IH; reflexivity].
Qed.

(** [bandunsplit] stacks waveforms of one length as the rows of a 2-D
    array. *)
Lemma bandunsplit_stacks (rows : list (list Q)) (n : nat) :
  rows <> [] ->
  Forall (fun r => length r = n) rows ->
  bandunsplit (map Arr1 rows) = Ok (Arr2 rows).
Proof.
  intros Hne Hlen; unfold bandunsplit, np_vstack.
  rewrite rows_of_waveforms.
  destruct rows as [|r rows]; [contradiction|].
  inversion Hlen as [|? ? Hr Hrows]; subst.
  rewrite (all_same_length_Forall (length r) rows Hrows); reflexivity.
Qed.

(** C2, as the code has it.  For a non-empty permutation of valid indices
    over waveforms of one length [n], reordering puts band
    [permutation[i]] at position [i], and recombining stacks the reordered
    bands as the rows of a 2-D array, one row of length [n] per band: it
    neither sums nor concatenates them. *)
Theorem combine_bands_stacks_reordered
  (rows : list (list Q)) (permutation : list Z) (n : nat)
  (Hperm : Forall (fun i => 0 <= i < Z.of_nat (length rows)) permutation)
  (Hne : permutation <> [])
  (Hlen : Forall (fun r => length r = n) rows) :
  let reordered := map (fun i => nth (Z.to_nat i) rows []) permutation in
  shuffle (map Arr1 rows) permutation = Ok (map Arr1 reordered)
  /\ combine_bands (map Arr1 rows) permutation = Ok (Arr2 reordered)
  /\ length reordered = length permutation
  /\ Forall (fun r => length r = n) reordered.
Proof.
  intros reordered.
  assert (Hsh : shuffle (map Arr1 rows) permutation = Ok (map Arr1 reordered)).
  { rewrite (shuffle_reorders (map Arr1 rows) permutation (Arr1 [])).
    - f_equal; unfold reordered; rewrite map_map.
      apply map_ext; intros i.
      change (Arr1 (@nil Q)) with (@Arr1 Q []); rewrite map_nth; reflexivity.
    - rewrite length_map; exact Hperm. }
  assert (Hrows : Forall (fun r => length r = n) reordered).
  { unfold reordered; apply Forall_forall; intros r Hr.
    apply in_map_iff in Hr; destruct Hr as (i & <- & Hi).
    rewrite Forall_forall in Hperm, Hlen.
    apply Hlen, nth_In; specialize (Hperm i Hi); lia. }
  repeat split.
  - exact Hsh.
  - unfold combine_bands, signal; rewrite Hsh; simpl.
    apply (bandunsplit_stacks reordered n); [|exact Hrows].
    unfold reordered; destruct permutation; [contradiction | discriminate].
  - unfold reordered; apply length_map.
  - exact Hrows.
Qed.

Lemma combine_bands_stacks_reordered_witness :
  combine_bands [Arr1 [1; 2]; Arr1 [3; 4]]%Q [1; 0] = Ok (Arr2 [[3; 4]; [1; 2]]%Q).
Proof.
  apply (combine_bands_stacks_reordered [[1; 2]; [3; 4]]%Q [1; 0] 2).
  - repeat constructor; simpl; lia.
  - discriminate.
  - repeat constructor.
Defined.

(** C2 as stated fails: on two bands the recombination yields a 2-D array of
    two rows, not the waveform of their sample-wise sums. *)
Lemma combine_bands_does_not_sum :
  combine_bands [Arr1 [1; 2]; Arr1 [3; 4]]%Q [1; 0] = Ok (Arr2 [[3; 4]; [1; 2]]%Q)
  /\ sum_samplewise [[3; 4]; [1; 2]]%Q = [3 + 1; 4 + 2]%Q
  /\ combine_bands [Arr1 [1; 2]; Arr1 [3; 4]]%Q [1; 0]
     <> Ok (Arr1 (sum_samplewise [[3; 4]; [1; 2]]%Q)).
Proof.
  repeat split; try reflexivity.
  vm_compute; discriminate.
Qed.

(** ** Normalisation on output *)

(** C4, evaluated on the buffer [1, -3]: [write_wav_file] divides by
    [np.max], the largest sample (here 1), not by the largest magnitude
    (here 3), so the sample [-3] is written unchanged and lies outside
    [-1, 1]. *)
Theorem write_wav_file_divides_by_largest_sample :
  write_wav_file (Arr1 [1; -3]%Q) "speech.wav" 8000 true empty_world
  = (Ok tt,
     {| stdout := [];
        wavs := [{| wav_name := "speechscrambled.wav";
                    wav_rate := 8000;
                    wav_data := Arr1 [Finite (1 # 1); Finite (-3 # 1)] |}] |})
  /\ (-3 # 1 < -1)%Q.
Proof. split; [vm_compute; reflexivity | reflexivity]. Qed.

(** ** Validation of the band count *)

Lemma range_nonpositive (n : Z) : n <= 0 -> range n = [].
Proof.
  intros Hn; unfold range.
  replace (Z.to_nat n) with 0%nat by lia; reflexivity.
Qed.

(** C5, as the code has it.  For [n <= 0]: [check_bands] reports a failure
    ([-1]) for the negative counts only and accepts [n = 0]; [getfilts] fails
    for [n = 0] (the division by [n]) and returns the empty list of filters
    for a negative count. *)
Theorem band_count_validation `{Numerics} (n fs : Z) (Hn : n <= 0) :
  check_bands n = (if n =? 0 then 0 else -1)
  /\ getfilts n fs = (if n =? 0 then Raise ZeroDivisionError else Ok []).
Proof.
  unfold check_bands, getfilts, getfilts_with.
  destruct (Z.eqb_spec n 0) as [->|Hnz].
  - split; reflexivity.
  - replace (n <? 0) with true by (symmetry; apply Z.ltb_lt; lia).
    rewrite (range_nonpositive n Hn); split; reflexivity.
Qed.

Lemma band_count_validation_witness :
  check_bands (-2) = -1 /\ @getfilts sample_numerics (-2) 8000 = Ok [].
Proof.
  apply (@band_count_validation sample_numerics (-2) 8000); lia.
Defined.

(** C5 as stated fails at [n = 0], which [check_bands] accepts, and at
    [n = -1], for which [getfilts] returns the empty list whatever the
    filter design. *)
Lemma band_count_zero_accepted :
  check_bands 0 = 0
  /\ check_bands 0 <> -1
  /\ (forall N : Numerics, @getfilts N (-1) 8000 = Ok []).
Proof.
  repeat split; [discriminate].
Qed.

(** ** The filter bank *)

Lemma getfilts_loop_unfold {F : Type} (mk : Z -> Z -> result F) (step : Z)
  (m k : nat) (s : Z) (acc : list F) :
  s = fst (band_edge step (Z.of_nat k)) ->
  getfilts_loop mk step (map Z.of_nat (seq k m)) s acc
  = (fs <- mapM (fun c => mk (fst c) (snd c))
             (map (band_edge step) (map Z.of_nat (seq k m))) ;;
     Ok (acc ++ fs)).
Proof.
  revert k s acc; induction m as [|m IH]; intros k s acc Hs; simpl.
  - rewrite app_nil_r; reflexivity.
  - unfold band_edge in Hs; simpl in Hs; rewrite <- Hs.
    destruct (mk s ((Z.of_nat k + 1) * step - 1)) as [f|e]; simpl; [|reflexivity].
    rewrite (IH (S k) ((Z.of_nat k + 1) * step) (acc ++ [f])).
    + destruct (mapM _ _) as [fs|e]; simpl; [|reflexivity].
      rewrite <- app_assoc; reflexivity.
    + rewrite Nat2Z.inj_succ; unfold band_edge, fst.
      replace (Z.succ (Z.of_nat k) =? 0) with false by (symmetry; apply Z.eqb_neq; lia).
      lia.
Qed.

Lemma mapM_pairs (l : list (Z * Z)) :
  mapM (fun c => Ok (fst c, snd c)) l = Ok l.
Proof.
  induction l as [|[lo hi] l IH]; simpl; [reflexivity | rewrite IH; reflexivity].
Qed.

Lemma getfilts_cutoffs_eq (n fs : Z) :
  n <> 0 ->
  getfilts_cutoffs n fs = Ok (map (band_edge (Z.quot fs (2 * n))) (range n)).
Proof.
  intros Hn; unfold getfilts_cutoffs, getfilts_with, range.
  replace (n =? 0) with false by (symmetry; apply Z.eqb_neq; exact Hn).
  rewrite getfilts_loop_unfold by reflexivity.
  rewrite mapM_pairs; reflexivity.
Qed.

(** [getfilts] designs one band-pass filter per recorded pair of cutoffs. *)
Lemma getfilts_from_cutoffs `{Numerics} (n fs : Z) :
  getfilts n fs
  = (bands <- getfilts_cutoffs n fs ;;
     mapM (fun c => cheby1 5 4%Q [fst c; snd c] Bandpass fs) bands).
Proof.
  destruct (Z.eq_dec n 0) as [->|Hn]; [reflexivity|].
  rewrite (getfilts_cutoffs_eq n fs Hn); simpl.
  unfold getfilts, getfilts_with, range.
  replace (n =? 0) with false by (symmetry; apply Z.eqb_neq; exact Hn).
  rewrite getfilts_loop_unfold by reflexivity.
  destruct (mapM _ _); reflexivity.
Qed.

Lemma length_range (n : Z) : 0 <= n -> Z.of_nat (length (range n)) = n.
Proof.
  intros Hn; unfold range; rewrite length_map, length_seq; lia.
Qed.

Lemma getitem_band (step n b : Z) :
  0 <= b < n ->
  getitem (map (band_edge step) (range n)) b = Ok (band_edge step b).
Proof.
  intros Hb.
  rewrite (getitem_nth _ b (band_edge step 0))
    by (rewrite length_map, length_range; lia).
  f_equal; rewrite map_nth; f_equal.
  unfold range.
  change 0 with (Z.of_nat 0); rewrite map_nth, seq_nth by lia.
  lia.
Qed.

Lemma step_bounds (n fs : Z) :
  1 <= n -> 0 <= fs ->
  2 * (n * Z.quot fs (2 * n)) <= fs < 2 * (n * Z.quot fs (2 * n)) + 2 * n.
Proof.
  intros Hn Hfs.
  rewrite Z.quot_div_nonneg by lia.
  pose proof (Z.mul_div_le fs (2 * n) ltac:(lia)).
  pose proof (Z.mul_succ_div_gt fs (2 * n) ltac:(lia)).
  lia.
Qed.

(** Every frequency from 1 Hz up to [n * step] is at or above the lower
    cutoff of some band and less than 1 Hz above its upper cutoff. *)
Lemma band_edge_covers (step n : Z) (f : Q) :
  0 <= n -> (1 <= f)%Q -> (f < inject_Z (n * step))%Q ->
  exists b, 0 <= b < n
    /\ (inject_Z (fst (band_edge step b)) <= f)%Q
    /\ (f < inject_Z (snd (band_edge step b) + 1))%Q.
Proof.
  intros Hn H1 Hf.
  pose proof (Qfloor_le f) as Hlo.
  pose proof (Qlt_floor f) as Hhi.
  generalize dependent (Qfloor f); intros k Hlo Hhi.
  assert (Hk1 : 1 < k + 1).
  { rewrite Zlt_Qlt; apply Qle_lt_trans with f; [exact H1 | exact Hhi]. }
  assert (Hkn : k < n * step).
  { rewrite Zlt_Qlt; apply Qle_lt_trans with f; [exact Hlo | exact Hf]. }
  assert (Hstep : 0 < step) by nia.
  pose proof (Z.mul_div_le k step Hstep).
  pose proof (Z.mul_succ_div_gt k step Hstep).
  exists (k / step); unfold band_edge, fst, snd; repeat split.
  - apply Z.div_pos; lia.
  - apply Z.div_lt_upper_bound; lia.
  - apply Qle_trans with (inject_Z k); [|exact Hlo].
    rewrite <- Zle_Qle; destruct (Z.eqb_spec (k / step) 0); lia.
  - apply Qlt_le_trans with (inject_Z (k + 1)); [exact Hhi|].
    rewrite <- Zle_Qle; lia.
Qed.

(** C3, as the code has it.  For [n >= 1] and a sample rate [fs >= 0], with
    [step = int((fs / 2) / n)]: [getfilts] asks for [n] bands, band [b] with
    cutoffs [(b * step, (b + 1) * step - 1)] except that band 0 starts at
    1 Hz; each band starts exactly 1 Hz above the upper cutoff of the one
    before it, so bands never overlap; every frequency from 1 Hz up to
    [n * step] is within 1 Hz above a band; and the top edge [n * step] is at
    most Nyquist and less than [n] Hz below it. *)
Theorem getfilts_band_layout `{Numerics} (n fs : Z) (Hn : 1 <= n) (Hfs : 0 <= fs) :
  let step := Z.quot fs (2 * n) in
  exists bands : list (Z * Z),
    getfilts_cutoffs n fs = Ok bands
    /\ getfilts n fs = mapM (fun c => cheby1 5 4%Q [fst c; snd c] Bandpass fs) bands
    /\ Z.of_nat (length bands) = n
    /\ (forall b, 0 <= b < n ->
          getitem bands b = Ok (if b =? 0 then 1 else b * step, (b + 1) * step - 1))
    /\ (forall b lo hi lo' hi', 0 <= b < n - 1 ->
          getitem bands b = Ok (lo, hi) -> getitem bands (b + 1) = Ok (lo', hi') ->
          lo' = hi + 1)
    /\ (forall f : Q, (1 <= f)%Q -> (f < inject_Z (n * step))%Q ->
          exists b lo hi, 0 <= b < n /\ getitem bands b = Ok (lo, hi)
            /\ (inject_Z lo <= f)%Q /\ (f < inject_Z (hi + 1))%Q)
    /\ 2 * (n * step) <= fs < 2 * (n * step) + 2 * n.
Proof.
  intros step.
  exists (map (band_edge step) (range n)).
  assert (Hc : getfilts_cutoffs n fs = Ok (map (band_edge step) (range n)))
    by (apply getfilts_cutoffs_eq; lia).
  repeat match goal with |- _ /\ _ => split end.
  - exact Hc.
  - rewrite getfilts_from_cutoffs, Hc; reflexivity.
  - rewrite length_map; apply length_range; lia.
  - intros b Hb; apply getitem_band; exact Hb.
  - intros b lo hi lo' hi' Hb E E'.
    rewrite getitem_band in E, E' by lia.
    unfold band_edge in E, E'.
    replace (b + 1 =? 0) with false in E' by (symmetry; apply Z.eqb_neq; lia).
    inversion E; inversion E'; lia.
  - intros f H1 Hf.
    destruct (band_edge_covers step n f ltac:(lia) H1 Hf) as (b & Hb & Hlo & Hhi).
    exists b, (fst (band_edge step b)), (snd (band_edge step b)).
    repeat split; try lia; try assumption.
    rewrite getitem_band by exact Hb.
    destruct (band_edge step b); reflexivity.
  - apply step_bounds; assumption.
  - apply step_bounds; assumption.
Qed.

Lemma getfilts_band_layout_witness :
  exists bands : list (Z * Z),
    getfilts_cutoffs 4 8000 = Ok bands
    /\ @getfilts sample_numerics 4 8000
       = mapM (fun c => @cheby1 sample_numerics 5 4%Q [fst c; snd c] Bandpass 8000)
              bands
    /\ Z.of_nat (length bands) = 4
    /\ (forall b, 0 <= b < 4 ->
          getitem bands b = Ok (if b =? 0 then 1 else b * 1000, (b + 1) * 1000 - 1))
    /\ (forall b lo hi lo' hi', 0 <= b < 4 - 1 ->
          getitem bands b = Ok (lo, hi) -> getitem bands (b + 1) = Ok (lo', hi') ->
          lo' = hi + 1)
    /\ (forall f : Q, (1 <= f)%Q -> (f < inject_Z (4 * 1000))%Q ->
          exists b lo hi, 0 <= b < 4 /\ getitem bands b = Ok (lo, hi)
            /\ (inject_Z lo <= f)%Q /\ (f < inject_Z (hi + 1))%Q)
    /\ 2 * (4 * 1000) <= 8000 < 2 * (4 * 1000) + 2 * 4.
Proof.
  apply (@getfilts_band_layout sample_numerics 4 8000); lia.
Defined.

(** C3 as stated fails for 7 bands at 8000 Hz: [step] is 571, the last band
    ends at 3996 Hz, and 3998 Hz, below the Nyquist frequency 4000 Hz, is
    more than 1 Hz away from every band. *)
Lemma getfilts_gap_below_nyquist :
  getfilts_cutoffs 7 8000
  = Ok [(1, 570); (571, 1141); (1142, 1712); (1713, 2283);
        (2284, 2854); (2855, 3425); (3426, 3996)]
  /\ 0 < 2 * 3998 < 8000
  /\ (forall lo hi,
        In (lo, hi) [(1, 570); (571, 1141); (1142, 1712); (1713, 2283);
                     (2284, 2854); (2855, 3425); (3426, 3996)] ->
        ~ (lo - 1 <= 3998 <= hi + 1)).
Proof.
  split; [reflexivity | split; [lia|]].
  intros lo hi Hin; simpl in Hin.
  repeat (destruct Hin as [Hin|Hin]; [inversion Hin; lia|]).
  contradiction.
Qed.

(** ** Validation of the rate *)

Lemma all_digits_string_of_uint (d : Decimal.uint) :
  all_digits (NilEmpty.string_of_uint d) = true.
Proof. induction d; simpl; auto. Qed.

Lemma digit_not_char (c x : ascii) :
  is_digit c = true -> is_digit x = false -> Ascii.eqb c x = false.
Proof.
  intros Hc Hx; destruct (Ascii.eqb_spec c x) as [->|]; [congruence | reflexivity].
Qed.

Lemma digit_not_space (c : ascii) : is_digit c = true -> is_space c = false.
Proof.
  unfold is_digit, is_space; intros Hc.
  apply andb_true_iff in Hc; destruct Hc as [H1 H2].
  apply Z.leb_le in H1, H2.
  apply orb_false_iff; split; apply andb_false_iff.
  - right; apply Z.leb_gt; lia.
  - right; apply Z.leb_gt; lia.
Qed.

Lemma split_on_digits (s : string) :
  all_digits s = true -> split_on "/" s = [s].
Proof.
  induction s as [|c s IH]; simpl; intros Hs; [reflexivity|].
  apply andb_true_iff in Hs; destruct Hs as [Hc Hs].
  rewrite (digit_not_char c "/" Hc eq_refl), (IH Hs); reflexivity.
Qed.

Lemma split_on_rate (a b : string) :
  all_digits a = true -> all_digits b = true ->
  split_on "/" (a ++ String "/" b) = [a; b].
Proof.
  intros Ha Hb; induction a as [|c a IH]; simpl.
  - rewrite (split_on_digits b Hb); reflexivity.
  - simpl in Ha; apply andb_true_iff in Ha; destruct Ha as [Hc Ha].
    rewrite (digit_not_char c "/" Hc eq_refl), (IH Ha); reflexivity.
Qed.

Lemma lstrip_digits (s : string) : all_digits s = true -> lstrip s = s.
Proof.
  destruct s as [|c s]; simpl; intros Hs; [reflexivity|].
  apply andb_true_iff in Hs; destruct Hs as [Hc _].
  rewrite (digit_not_space c Hc); reflexivity.
Qed.

Lemma rstrip_digits (s : string) : all_digits s = true -> rstrip s = s.
Proof.
  induction s as [|c s IH]; simpl; intros Hs; [reflexivity|].
  apply andb_true_iff in Hs; destruct Hs as [Hc Hs].
  rewrite (IH Hs), (digit_not_space c Hc); destruct s; reflexivity.
Qed.

Lemma drop_underscores_digits (s : string) (b : bool) :
  all_digits s = true -> s <> EmptyString \/ b = true ->
  drop_underscores s b = Some s.
Proof.
  revert b; induction s as [|c s IH]; simpl; intros b Hs Hb.
  - destruct Hb as [Hb | ->]; [contradiction | reflexivity].
  - apply andb_true_iff in Hs; destruct Hs as [Hc Hs].
    rewrite (digit_not_char c "_" Hc eq_refl).
    rewrite (IH true Hs (or_intror eq_refl)); reflexivity.
Qed.

Lemma py_int_digits (s : string) :
  all_digits s = true -> s <> EmptyString -> py_int s = int_of_digits s.
Proof.
  intros Hs Hne; unfold py_int.
  rewrite (lstrip_digits s Hs), (rstrip_digits s Hs).
  destruct s as [|c s]; [contradiction|].
  simpl in Hs; apply andb_true_iff in Hs; destruct Hs as [Hc _].
  rewrite (digit_not_char c "-" Hc eq_refl), (digit_not_char c "+" Hc eq_refl).
  reflexivity.
Qed.

Lemma to_uint_nonnil (n : N) : N.to_uint n <> Decimal.Nil.
Proof.
  destruct n as [|p]; simpl; [discriminate | apply DecimalPos.Unsigned.to_uint_nonnil].
Qed.

(** [int] reads the decimal numeral of [n] back as [n]. *)
Lemma py_int_decimal (n : N) : py_int (decimal n) = Ok (Z.of_N n).
Proof.
  unfold decimal.
  assert (Hne : NilEmpty.string_of_uint (N.to_uint n) <> EmptyString).
  { pose proof (to_uint_nonnil n) as Hnil.
    destruct (N.to_uint n); simpl; try discriminate; contradiction. }
  rewrite py_int_digits by (exact Hne || apply all_digits_string_of_uint).
  unfold int_of_digits.
  rewrite drop_underscores_digits
    by ((left; exact Hne) || apply all_digits_string_of_uint).
  rewrite NilEmpty.usu, DecimalN.Unsigned.of_to; reflexivity.
Qed.




(** ** Runs of [py] programs *)

Lemma yields_bind {A B : Type} (c : py A) (k : A -> py B) (a : A) (q : result B)
  (f1 f2 : list wav) :
  yields c (Ok a) f1 -> yields (k a) q f2 -> yields (bind c k) q (f1 ++ f2).
Proof.
  intros Hc Hk w; unfold bind.
  destruct (Hc w) as [Hq Hw]; destruct (c w) as [r w1]; simpl in Hq, Hw; subst r.
  destruct (Hk w1) as [Hq' Hw']; rewrite Hq', Hw', Hw, app_assoc; split; reflexivity.
Qed.

Lemma yields_bind_raise {A B : Type} (c : py A) (k : A -> py B) (e : exn)
  (f : list wav) :
  yields c (Raise e) f -> yields (bind c k) (Raise e) f.
Proof.
  intros Hc w; unfold bind.
  destruct (Hc w) as [Hq Hw]; destruct (c w) as [r w1]; simpl in Hq, Hw; subst r.
  split; [reflexivity | exact Hw].
Qed.

Lemma yields_lift {A : Type} (r : result A) : yields (lift r) r [].
Proof. intros w; simpl; rewrite app_nil_r; split; reflexivity. Qed.

Lemma yields_ret {A : Type} (a : A) : yields (ret a) (Ok a) [].
Proof. intros w; simpl; rewrite app_nil_r; split; reflexivity. Qed.

Lemma yields_debug_print (msg : line) (debug : bool) :
  yields (debug_print msg debug) (Ok tt) [].
Proof. intros w; destruct debug; simpl; rewrite app_nil_r; split; reflexivity. Qed.

Lemma yields_local {A : Type} (v : option A) :
  yields (local v)
         (match v with Some a => Ok a | None => Raise UnboundLocalError end) [].
Proof. intros w; destruct v; simpl; rewrite app_nil_r; split; reflexivity. Qed.

Lemma yields_wavfile_write (name : string) (Fs : Z) (data : ndarray f32) :
  yields (wavfile_write name Fs data) (Ok tt)
         [{| wav_name := name; wav_rate := Fs; wav_data := data |}].
Proof. intros w; split; reflexivity. Qed.

(** A step that writes nothing and returns [a] can be skipped. *)
Lemma yields_skip {A B : Type} (c : py A) (k : A -> py B) (a : A) (q : result B)
  (f : list wav) :
  yields c (Ok a) [] -> yields (k a) q f -> yields (bind c k) q f.
Proof. intros Hc Hk; exact (yields_bind c k a q [] f Hc Hk). Qed.

Lemma yields_lift_ok {A B : Type} (r : result A) (k : A -> py B) (a : A)
  (q : result B) (f : list wav) :
  r = Ok a -> yields (k a) q f -> yields (bind (lift r) k) q f.
Proof. intros ->; apply yields_skip, yields_lift. Qed.

Lemma yields_lift_raise {A B : Type} (r : result A) (k : A -> py B) (e : exn) :
  r = Raise e -> yields (bind (lift r) k) (Raise e) [].
Proof. intros ->; apply yields_bind_raise, yields_lift. Qed.

(** The two ways [write_wav_file] ends. *)
Lemma yields_write_wav_file (sig : signal) (file : string) (Fs : Z) (flag : bool)
  (m : Q) :
  np_max sig = Ok m ->
  yields (write_wav_file sig file Fs flag) (Ok tt)
    [{| wav_name := ((strip_wav file)
                     ++ (if flag then "scrambled.wav" else "descrambled.wav"))%string;
        wav_rate := Fs;
        wav_data := np_map (np_div m) sig |}].
Proof.
  intros Hm; unfold write_wav_file.
  eapply yields_lift_ok; [exact Hm|].
  destruct flag; apply yields_wavfile_write.
Qed.

Lemma yields_write_wav_file_raise (sig : signal) (file : string) (Fs : Z)
  (flag : bool) (e : exn) :
  np_max sig = Raise e -> yields (write_wav_file sig file Fs flag) (Raise e) [].
Proof. intros Hm; unfold write_wav_file; apply yields_lift_raise; exact Hm. Qed.

(** Skips the steps of a run that print at most: [debug_print], a [ret], a
    local variable that is bound. *)
Ltac skip_quiet :=
  cbv beta zeta;
  repeat match goal with
    | |- yields (bind (debug_print _ _) _) _ _ =>
        eapply yields_skip; [apply yields_debug_print|]; cbv beta zeta
    | |- yields (bind (ret _) _) _ _ =>
        eapply yields_skip; [apply yields_ret|]; cbv beta zeta
    | |- yields (bind (local (Some _)) _) _ _ =>
        eapply yields_skip; [apply (yields_local (Some _))|]; cbv beta zeta
    end.

Lemma aborts_skip {A B : Type} (c : py A) (k : A -> py B) (a : A) :
  yields c (Ok a) [] -> aborts (k a) -> aborts (bind c k).
Proof.
  intros Hc [e He]; exists e; eapply yields_skip; eassumption.
Qed.

Lemma aborts_lift {A B : Type} (r : result A) (k : A -> py B) :
  (forall a, r = Ok a -> aborts (k a)) -> aborts (bind (lift r) k).
Proof.
  intros Hk; destruct r as [a|e].
  - destruct (Hk a eq_refl) as [e He]; exists e.
    eapply yields_lift_ok; [reflexivity | exact He].
  - exists e; apply yields_lift_raise; reflexivity.
Qed.

Lemma aborts_local_unbound {A B : Type} (k : A -> py B) :
  aborts (bind (local None) k).
Proof.
  exists UnboundLocalError; apply yields_bind_raise, (yields_local None).
Qed.

Lemma aborts_run {A : Type} (c : py A) (w : world) :
  aborts c -> (exists e, fst (c w) = Raise e) /\ wavs (snd (c w)) = wavs w.
Proof.
  intros [e He]; destruct (He w) as [Hq Hw].
  rewrite app_nil_r in Hw; split; [exists e; exact Hq | exact Hw].
Qed.

(** The three branches on [mode] that are to split the signal in time. *)
Lemma yields_time_split (mode : Z) :
  yields (if mode =? 0 then ret tt
          else if mode =? 1 then ret tt
          else if mode =? 2 then ret tt
          else ret tt) (Ok tt) [].
Proof.
  destruct (mode =? 0), (mode =? 1), (mode =? 2); apply yields_ret.
Qed.

(** ** No band *)

(** A band count of 0 passes [check_bands], and the run then ends at
    [carriers[0]]: no carrier was generated for the single unsplit band. *)
Theorem scrambler_zero_bands_raises `{Numerics}
  (mode : Z) (filename : string) (sp : speech_parameters) (rate : Q)
  (debug : bool) (w : world) (Hmode : mode = 0 \/ mode = 1 \/ mode = 2) :
  check_bands 0 = 0
  /\ fst (scrambler mode filename sp rate 0 debug w) = Raise IndexError
  /\ wavs (snd (scrambler mode filename sp rate 0 debug w)) = wavs w.
Proof.
  split; [reflexivity|].
  assert (Hy : yields (scrambler mode filename sp rate 0 debug) (Raise IndexError) []).
  { unfold scrambler, scrambler_with.
    destruct Hmode as [-> | [-> | ->]]; simpl Z.eqb; cbv iota; skip_quiet.
    all: eapply yields_lift_ok; [reflexivity|]; skip_quiet.
    all: eapply yields_lift_ok; [reflexivity|].
    all: eapply yields_lift_ok; [reflexivity|]; skip_quiet.
    all: apply yields_lift_raise; reflexivity. }
  destruct (Hy w) as [Hq Hw]; rewrite app_nil_r in Hw; split; assumption.
Qed.

Lemma scrambler_zero_bands_raises_witness :
  check_bands 0 = 0
  /\ fst (@scrambler sample_numerics 0 "speech.wav"
            {| sp_Fs := 8000; sp_Ts := 1 # 8000; sp_duration := 2 # 8000;
               sp_x := Arr1 [1; -1]%Q; sp_t := Arr1 [0; 2 # 8000]%Q |}
            0%Q 0 false empty_world) = Raise IndexError
  /\ wavs (snd (@scrambler sample_numerics 0 "speech.wav"
                  {| sp_Fs := 8000; sp_Ts := 1 # 8000; sp_duration := 2 # 8000;
                     sp_x := Arr1 [1; -1]%Q; sp_t := Arr1 [0; 2 # 8000]%Q |}
                  0%Q 0 false empty_world)) = wavs empty_world.
Proof.
  apply (@scrambler_zero_bands_raises sample_numerics 0 "speech.wav"
           {| sp_Fs := 8000; sp_Ts := 1 # 8000; sp_duration := 2 # 8000;
              sp_x := Arr1 [1; -1]%Q; sp_t := Arr1 [0; 2 # 8000]%Q |}
           0%Q false empty_world).
  left; reflexivity.
Defined.

(** ** More than one band *)

Lemma mapM_length {A B : Type} (f : A -> result B) (l : list A) (l' : list B) :
  mapM f l = Ok l' -> length l' = length l.
Proof.
  revert l'; induction l as [|a l IH]; simpl; intros l' E.
  - inversion E; reflexivity.
  - destruct (f a); simpl in E; [|discriminate].
    destruct (mapM f l) as [bs|]; simpl in E; [|discriminate].
    inversion E; simpl; rewrite (IH bs eq_refl); reflexivity.
Qed.

Lemma mapM_raises_only {A B : Type} (f : A -> result B) (l : list A) (e0 e : exn) :
  (forall a e', f a = Raise e' -> e' = e0) -> mapM f l = Raise e -> e = e0.
Proof.
  intros Hf; induction l as [|a l IH]; simpl; intros E; [discriminate|].
  destruct (f a) eqn:Ea; simpl in E.
  - destruct (mapM f l); simpl in E; [discriminate|].
    inversion E; subst; apply IH; reflexivity.
  - inversion E; subst; eapply Hf; exact Ea.
Qed.

Lemma cheby1_raises_only `{Numerics} (N : Z) (rp : Q) (Wn : list Z) (bt : btype)
  (fs : Z) (e : exn) :
  cheby1 N rp Wn bt fs = Raise e -> e = ValueError.
Proof.
  unfold cheby1; destruct (_ && _); intros E; inversion E; reflexivity.
Qed.

(** [bandspec] stops at the first band: [spectrum] raises NameError. *)
Lemma bandspec_raises (xs : list signal) (hl : Z) :
  xs <> [] -> bandspec xs hl = Raise NameError.
Proof.
  destruct xs as [|x xs]; [contradiction|]; intros _.
  unfold bandspec, enumerate, range.
  rewrite Nat2Z.id.
  replace (Z.of_nat (length (x :: xs)) =? 0) with false
    by (symmetry; apply Z.eqb_neq; simpl; lia).
  reflexivity.
Qed.

(** With at least one band requested, [bandsplit] never returns: either a
    filter design is refused or [spectrum] raises. *)
Lemma bandsplit_raises `{Numerics} (sig : signal) (num_bands fs : Z) :
  1 <= num_bands ->
  exists e, bandsplit sig num_bands fs = Raise e /\ (e = NameError \/ e = ValueError).
Proof.
  intros Hn; unfold bandsplit.
  rewrite getfilts_from_cutoffs, getfilts_cutoffs_eq by lia; simpl.
  destruct (mapM _ _) as [filts|e] eqn:E; simpl.
  - exists NameError; split; [|left; reflexivity].
    apply bandspec_raises.
    apply mapM_length in E.
    rewrite length_map in E.
    pose proof (length_range num_bands ltac:(lia)) as Hlen.
    destruct filts; [simpl in E; lia | discriminate].
  - exists e; split; [reflexivity | right].
    eapply mapM_raises_only; [|exact E].
    intros c e'; apply cheby1_raises_only.
Qed.

(** Whatever the band splitter returns, with more than one band the
    recombination leaves [speech_scrambled] unassigned and the run ends at
    its first use, before the first file is written. *)
Lemma scrambler_with_aborts `{Numerics}
  (split : signal -> Z -> Z -> result (list signal))
  (mode : Z) (filename : string) (sp : speech_parameters) (rate : Q) (bands : Z)
  (debug : bool) :
  1 < bands -> aborts (scrambler_with split mode filename sp rate bands debug).
Proof.
  intros Hb; unfold scrambler_with.
  replace (bands >? 1) with true by (symmetry; apply Z.gtb_lt; lia).
  eapply aborts_skip; [apply yields_debug_print|]; cbv beta zeta.
  eapply aborts_skip; [apply yields_debug_print|]; cbv beta.
  destruct (if mode =? 0 then Some "Direct"%string
            else if mode =? 1 then Some "Gap Detection"%string
            else if mode =? 2 then Some "Combo"%string else None) as [mode_str|];
    [|apply aborts_local_unbound].
  eapply aborts_skip; [apply (yields_local (Some mode_str))|]; cbv beta.
  eapply aborts_skip; [apply yields_debug_print|]; cbv beta.
  eapply aborts_skip; [apply yields_debug_print|]; cbv beta.
  eapply aborts_skip; [apply yields_time_split|]; cbv beta.
  eapply aborts_skip; [apply yields_debug_print|]; cbv beta.
  apply aborts_lift; intros speech_band_split _.
  eapply aborts_skip; [apply yields_debug_print|]; cbv beta.
  apply aborts_lift; intros carriers _.
  apply aborts_lift; intros lpfs _.
  eapply aborts_skip; [apply yields_debug_print|]; cbv beta.
  apply aborts_lift; intros speech_inverted_bands _.
  eapply aborts_skip; [apply (yields_lift (Ok None))|]; cbv beta.
  eapply aborts_skip; [apply yields_debug_print|]; cbv beta.
  apply aborts_local_unbound.
Qed.

(** With [bandsplit] as the splitter and a valid mode, the exception is the
    one [bandsplit] raises. *)
Lemma scrambler_raises_of_bandsplit `{Numerics}
  (mode : Z) (filename : string) (sp : speech_parameters) (rate : Q) (bands : Z)
  (debug : bool) (e : exn) :
  1 < bands -> mode = 0 \/ mode = 1 \/ mode = 2 ->
  bandsplit (remove_dc (sp_x sp)) bands (sp_Fs sp) = Raise e ->
  yields (scrambler mode filename sp rate bands debug) (Raise e) [].
Proof.
  intros Hb Hmode He; unfold scrambler, scrambler_with.
  replace (bands >? 1) with true by (symmetry; apply Z.gtb_lt; lia).
  destruct Hmode as [-> | [-> | ->]]; simpl Z.eqb; cbv iota;
    skip_quiet; apply yields_lift_raise; exact He.
Qed.

(** C10.  For every band count above 1, whatever the mode, rate, signal and
    debug flag: the run of [scrambler] ends in an exception with no file
    written.  The band split itself never returns ([spectrum] raises
    NameError, unless a filter design was refused first), which is the
    exception of the run for a valid mode; and were the splitter replaced by
    any other that returns, the run would still end in an exception before a
    file is written, the recombination branch leaving the scrambled signal
    unassigned. *)
Theorem scrambler_many_bands_writes_nothing `{Numerics}
  (mode : Z) (filename : string) (sp : speech_parameters) (rate : Q) (bands : Z)
  (debug : bool) (w : world) (Hb : 1 < bands) :
  ((exists e, fst (scrambler mode filename sp rate bands debug w) = Raise e)
   /\ wavs (snd (scrambler mode filename sp rate bands debug w)) = wavs w)
  /\ (exists e,
        bandsplit (remove_dc (sp_x sp)) bands (sp_Fs sp) = Raise e
        /\ (e = NameError \/ e = ValueError)
        /\ (mode = 0 \/ mode = 1 \/ mode = 2 ->
            fst (scrambler mode filename sp rate bands debug w) = Raise e))
  /\ (forall split : signal -> Z -> Z -> result (list signal),
        (exists e,
           fst (scrambler_with split mode filename sp rate bands debug w) = Raise e)
        /\ wavs (snd (scrambler_with split mode filename sp rate bands debug w))
           = wavs w).
Proof.
  split; [|split].
  - apply aborts_run, scrambler_with_aborts; exact Hb.
  - destruct (bandsplit_raises (remove_dc (sp_x sp)) bands (sp_Fs sp) ltac:(lia))
      as (e & He & Hkind).
    exists e; repeat split; try assumption.
    intros Hmode.
    apply (scrambler_raises_of_bandsplit mode filename sp rate bands debug e Hb Hmode He).
  - intros split; apply aborts_run, scrambler_with_aborts; exact Hb.
Qed.

Lemma scrambler_many_bands_writes_nothing_witness :
  (exists e,
     fst (@scrambler sample_numerics 0 "speech.wav"
            {| sp_Fs := 8000; sp_Ts := 1 # 8000; sp_duration := 2 # 8000;
               sp_x := Arr1 [1; -1]%Q; sp_t := Arr1 [0; 2 # 8000]%Q |}
            0%Q 4 true empty_world) = Raise e)
  /\ wavs (snd (@scrambler sample_numerics 0 "speech.wav"
                 {| sp_Fs := 8000; sp_Ts := 1 # 8000; sp_duration := 2 # 8000;
                    sp_x := Arr1 [1; -1]%Q; sp_t := Arr1 [0; 2 # 8000]%Q |}
                 0%Q 4 true empty_world)) = wavs empty_world.
Proof.
  apply (@scrambler_many_bands_writes_nothing sample_numerics 0 "speech.wav"
           {| sp_Fs := 8000; sp_Ts := 1 # 8000; sp_duration := 2 # 8000;
              sp_x := Arr1 [1; -1]%Q; sp_t := Arr1 [0; 2 # 8000]%Q |}
           0%Q 4 true empty_world).
  lia.
Defined.

(** ** The mode *)

Lemma agree_bind {A B : Type} (c1 c2 : py A) (k1 k2 : A -> py B) :
  agree c1 c2 -> (forall a, agree (k1 a) (k2 a)) -> agree (bind c1 k1) (bind c2 k2).
Proof.
  intros Hc Hk w1 w2 Hw; unfold bind.
  destruct (Hc w1 w2 Hw) as [Hq Hw'].
  destruct (c1 w1) as [r1 v1], (c2 w2) as [r2 v2]; simpl in Hq, Hw'; subst r2.
  destruct r1 as [a|e]; [apply Hk; exact Hw' | split; [reflexivity | exact Hw']].
Qed.

Lemma agree_ret {A : Type} (a : A) : agree (ret a) (ret a).
Proof. intros w1 w2 Hw; split; [reflexivity | exact Hw]. Qed.

Lemma agree_lift {A : Type} (r : result A) : agree (lift r) (lift r).
Proof. intros w1 w2 Hw; split; [reflexivity | exact Hw]. Qed.

Lemma agree_local {A : Type} (v : option A) : agree (local v) (local v).
Proof. destruct v; [apply agree_ret | apply agree_lift]. Qed.

(** Printing changes no file: two prints agree whatever they print. *)
Lemma agree_debug_print (m1 m2 : line) (debug : bool) :
  agree (debug_print m1 debug) (debug_print m2 debug).
Proof. intros w1 w2 Hw; destruct debug; split; (reflexivity || exact Hw). Qed.

Lemma agree_wavfile_write (name : string) (Fs : Z) (data : ndarray f32) :
  agree (wavfile_write name Fs data) (wavfile_write name Fs data).
Proof. intros w1 w2 Hw; split; [reflexivity | simpl; rewrite Hw; reflexivity]. Qed.

Lemma agree_write_wav_file (sig : signal) (file : string) (Fs : Z) (flag : bool) :
  agree (write_wav_file sig file Fs flag) (write_wav_file sig file Fs flag).
Proof.
  unfold write_wav_file; apply agree_bind; [apply agree_lift|].
  intros m; apply agree_wavfile_write.
Qed.

(** Reading a bound local variable is no step of its own. *)
Lemma agree_bound {A B : Type} (a1 a2 : A) (k1 k2 : A -> py B) :
  agree (k1 a1) (k2 a2) ->
  agree (bind (local (Some a1)) k1) (bind (local (Some a2)) k2).
Proof. intros Hk w1 w2 Hw; exact (Hk w1 w2 Hw). Qed.

Ltac agree_walk :=
  repeat match goal with
    | |- agree (debug_print _ _) (debug_print _ _) => apply agree_debug_print
    | |- agree (bind (local (Some _)) _) (bind (local (Some _)) _) =>
        apply agree_bound
    | |- agree (lift _) (lift _) => apply agree_lift
    | |- agree (ret _) (ret _) => apply agree_ret
    | |- agree (local _) (local _) => apply agree_local
    | |- agree (write_wav_file _ _ _ _) (write_wav_file _ _ _ _) =>
        apply agree_write_wav_file
    | |- agree (bind _ _) (bind _ _) => apply agree_bind; [|intros ?; cbv beta]
    end.

(** Two runs of [scrambler] that differ in the mode only, both modes among
    0, 1 and 2. *)
Lemma scrambler_modes_agree `{Numerics} (m1 m2 : Z) (filename : string)
  (sp : speech_parameters) (rate : Q) (bands : Z) (debug : bool) :
  m1 = 0 \/ m1 = 1 \/ m1 = 2 -> m2 = 0 \/ m2 = 1 \/ m2 = 2 ->
  agree (scrambler m1 filename sp rate bands debug)
        (scrambler m2 filename sp rate bands debug).
Proof.
  intros H1 H2; unfold scrambler, scrambler_with.
  destruct H1 as [-> | [-> | ->]]; destruct H2 as [-> | [-> | ->]];
    simpl Z.eqb; cbv iota; agree_walk.
Qed.

(** C9.  For every signal, rate, band count and debug flag, the runs of
    [scrambler] with mode 0, 1 and 2 from one world end with the same
    outcome and leave the same files, name, rate and samples: the mode only
    selects the text of a debug line.  With the debug flag off the three
    runs are equal altogether. *)
Theorem scrambler_output_independent_of_mode `{Numerics}
  (filename : string) (sp : speech_parameters) (rate : Q) (bands : Z)
  (debug : bool) (w : world) :
  let run := fun mode => scrambler mode filename sp rate bands debug w in
  fst (run 0) = fst (run 1) /\ fst (run 1) = fst (run 2)
  /\ wavs (snd (run 0)) = wavs (snd (run 1))
  /\ wavs (snd (run 1)) = wavs (snd (run 2))
  /\ (debug = false -> run 0 = run 1 /\ run 1 = run 2).
Proof.
  intros run; unfold run.
  destruct (scrambler_modes_agree 0 1 filename sp rate bands debug
              ltac:(tauto) ltac:(tauto) w w eq_refl) as [Hq01 Hw01].
  destruct (scrambler_modes_agree 1 2 filename sp rate bands debug
              ltac:(tauto) ltac:(tauto) w w eq_refl) as [Hq12 Hw12].
  repeat split; try assumption; subst debug; reflexivity.
Qed.

Lemma scrambler_output_independent_of_mode_witness :
  @scrambler sample_numerics 0 "speech.wav"
    {| sp_Fs := 8000; sp_Ts := 1 # 8000; sp_duration := 2 # 8000;
       sp_x := Arr1 [1; -1]%Q; sp_t := Arr1 [0; 2 # 8000]%Q |}
    0%Q 1 false empty_world
  = @scrambler sample_numerics 1 "speech.wav"
      {| sp_Fs := 8000; sp_Ts := 1 # 8000; sp_duration := 2 # 8000;
         sp_x := Arr1 [1; -1]%Q; sp_t := Arr1 [0; 2 # 8000]%Q |}
      0%Q 1 false empty_world.
Proof.
  apply (proj2 (proj2 (proj2 (proj2
           (@scrambler_output_independent_of_mode sample_numerics "speech.wav"
              {| sp_Fs := 8000; sp_Ts := 1 # 8000; sp_duration := 2 # 8000;
                 sp_x := Arr1 [1; -1]%Q; sp_t := Arr1 [0; 2 # 8000]%Q |}
              0%Q 1 false empty_world)))) eq_refl).
Defined.

(** ** One band *)

Lemma length_biquad (s : section) (z0 z1 : Q) (x : list Q) :
  length (biquad s z0 z1 x) = length x.
Proof.
  revert z0 z1; induction x as [|xn x IH]; intros z0 z1; simpl;
    [reflexivity | rewrite IH; reflexivity].
Qed.

Lemma length_sosfilt1 (filt : sos) (x : list Q) :
  length (sosfilt1 filt x) = length x.
Proof.
  unfold sosfilt1; revert x; induction filt as [|s filt IH]; intros x; simpl.
  - reflexivity.
  - rewrite IH; apply length_biquad.
Qed.

Lemma length_product_samplewise (x c : list Q) :
  length x = length c -> length (product_samplewise x c) = length x.
Proof.
  intros Hlen; unfold product_samplewise.
  rewrite length_map, length_combine, <- Hlen; apply Nat.min_id.
Qed.

Lemma length_remove_dc1 (v : list Q) : length (remove_dc1 v) = length v.
Proof. unfold remove_dc1; apply length_map. Qed.

Lemma length_carrier0 `{Numerics} (Fs : Z) (n : nat) : length (carrier0 Fs n) = n.
Proof. unfold carrier0, np_linspace0; rewrite !length_map; apply length_seq. Qed.

Lemma length_inversion_pass (c : list Q) (f : sos) (v : list Q) :
  length v = length c -> length (inversion_pass c f v) = length v.
Proof.
  intros Hlen; unfold inversion_pass.
  rewrite length_sosfilt1, length_product_samplewise; rewrite length_remove_dc1;
    [reflexivity | exact Hlen].
Qed.

(** On a single band, [invert] after [remove_dc] is one [inversion_pass]. *)
Lemma invert_remove_dc (c : list Q) (f : sos) (v : list Q) :
  length v = length c ->
  invert (remove_dc (Arr1 v)) (Arr1 c) f = Ok (Arr1 (inversion_pass c f v)).
Proof.
  intros Hlen.
  apply (invert_waveform (remove_dc1 v) c f).
  rewrite length_remove_dc1; exact Hlen.
Qed.

Lemma lpfilter_ok `{Numerics} (Fs : Z) :
  5264 < Fs -> lpfilter 2632 Fs = Ok (lowpass0 Fs).
Proof.
  intros HFs; unfold lpfilter, cheby1; simpl.
  replace (5264 <? Fs) with true by (symmetry; apply Z.ltb_lt; exact HFs).
  reflexivity.
Qed.

Lemma lpfilter_refused `{Numerics} (Fs : Z) :
  Fs <= 5264 -> lpfilter 2632 Fs = Raise ValueError.
Proof.
  intros HFs; unfold lpfilter, cheby1; simpl.
  replace (5264 <? Fs) with false by (symmetry; apply Z.ltb_ge; exact HFs).
  reflexivity.
Qed.

Lemma np_max_nonempty (v : list Q) :
  v <> [] -> exists m, np_max (Arr1 v) = Ok m.
Proof.
  destruct v as [|x v]; [contradiction|]; intros _.
  exists (fold_left Qmax v x); reflexivity.
Qed.

Lemma nonempty_length {A : Type} (v v' : list A) :
  length v' = length v -> v <> [] -> v' <> [].
Proof.
  destruct v, v'; simpl; intros Hlen Hne; try discriminate; congruence.
Qed.

Lemma yields_write_then {B : Type} (sig : list Q) (file : string) (Fs : Z)
  (flag : bool) (m : Q) (k : unit -> py B) (q : result B) (f : list wav) :
  np_max (Arr1 sig) = Ok m ->
  yields (k tt) q f ->
  yields (bind (write_wav_file (Arr1 sig) file Fs flag) k) q
    (written file (if flag then "scrambled.wav" else "descrambled.wav") Fs m sig :: f).
Proof.
  intros Hm Hk.
  exact (yields_bind _ k tt q _ f (yields_write_wav_file _ file Fs flag m Hm) Hk).
Qed.

Lemma invert_bands_single (b c : signal) (f : sos) :
  invert_bands [b] [c] [f] = (s <- invert b c f ;; Ok [s]).
Proof. reflexivity. Qed.

Lemma generate_single `{Numerics} (t : signal) (Fs : Z) :
  generate_carriers 1 t = Ok [carrier 2632 t]
  /\ generate_lpfilters 1 Fs = (f <- lpfilter 2632 Fs ;; Ok [f]).
Proof. split; reflexivity. Qed.

Lemma read_wav_file_ok (Fs : Z) (x : list Q) :
  Fs <> 0 ->
  read_wav_file Fs x
  = Ok {| sp_Fs := Fs;
          sp_Ts := (1 / inject_Z Fs)%Q;
          sp_duration := (inject_Z (Z.of_nat (length x)) / inject_Z Fs)%Q;
          sp_x := Arr1 x;
          sp_t := Arr1 (np_linspace0
                          (inject_Z (Z.of_nat (length x)) / inject_Z Fs)%Q
                          (length x)) |}.
Proof.
  intros HFs; unfold read_wav_file.
  replace (Fs =? 0) with false by (symmetry; apply Z.eqb_neq; exact HFs).
  reflexivity.
Qed.

(** The run of [scrambler] on one band: two inversion passes with one
    carrier and one low-pass filter, each buffer written after division by
    its largest sample. *)
Lemma single_band_run `{Numerics} (mode : Z) (filename : string) (Fs : Z)
  (x : list Q) (rate : Q) (debug : bool) (sp : speech_parameters) (m1 m2 : Q) :
  mode = 0 \/ mode = 1 \/ mode = 2 ->
  5264 < Fs ->
  read_wav_file Fs x = Ok sp ->
  np_max (Arr1 (inversion_pass (carrier0 Fs (length x)) (lowpass0 Fs) x)) = Ok m1 ->
  np_max (Arr1 (inversion_pass (carrier0 Fs (length x)) (lowpass0 Fs)
                  (inversion_pass (carrier0 Fs (length x)) (lowpass0 Fs) x)))
  = Ok m2 ->
  yields (scrambler mode filename sp rate 1 debug) (Ok tt)
    [written filename "scrambled.wav" Fs m1
       (inversion_pass (carrier0 Fs (length x)) (lowpass0 Fs) x);
     written filename "descrambled.wav" Fs m2
       (inversion_pass (carrier0 Fs (length x)) (lowpass0 Fs)
          (inversion_pass (carrier0 Fs (length x)) (lowpass0 Fs) x))].
Proof.
  intros Hmode HFs Hread Hm1 Hm2.
  rewrite read_wav_file_ok in Hread by lia; inversion Hread; subst sp; clear Hread.
  set (c := carrier0 Fs (length x)) in *.
  set (f := lowpass0 Fs) in *.
  assert (Hc : length x = length c) by (symmetry; apply length_carrier0).
  assert (Hs : length (inversion_pass c f x) = length c)
    by (rewrite length_inversion_pass; assumption).
  assert (Hcar : generate_carriers 1
                   (Arr1 (np_linspace0
                      (inject_Z (Z.of_nat (length x)) / inject_Z Fs)%Q (length x)))
                 = Ok [Arr1 c]) by reflexivity.
  assert (Hlp : generate_lpfilters 1 Fs = Ok [f]).
  { rewrite (proj2 (generate_single (Arr1 []) Fs)), (lpfilter_ok Fs HFs).
    reflexivity. }
  assert (Hinv1 : invert_bands [remove_dc (Arr1 x)] [Arr1 c] [f]
                  = Ok [Arr1 (inversion_pass c f x)]).
  { rewrite invert_bands_single, (invert_remove_dc c f x Hc); reflexivity. }
  assert (Hinv2 : invert_bands [remove_dc (Arr1 (inversion_pass c f x))] [Arr1 c] [f]
                  = Ok [Arr1 (inversion_pass c f (inversion_pass c f x))]).
  { rewrite invert_bands_single, (invert_remove_dc c f _ Hs); reflexivity. }
  unfold scrambler, scrambler_with; cbn [sp_Fs sp_Ts sp_duration sp_x sp_t].
  destruct Hmode as [-> | [-> | ->]]; simpl Z.eqb; cbv iota; skip_quiet.
  all: eapply yields_lift_ok; [reflexivity|]; skip_quiet.
  all: eapply yields_lift_ok; [exact Hcar|].
  all: eapply yields_lift_ok; [exact Hlp|]; skip_quiet.
  all: eapply yields_lift_ok; [exact Hinv1|].
  all: eapply yields_lift_ok; [reflexivity|]; skip_quiet.
  all: apply yields_write_then; [exact Hm1|]; skip_quiet.
  all: eapply yields_lift_ok; [reflexivity|].
  all: eapply yields_lift_ok; [exact Hinv2|].
  all: eapply yields_lift_ok; [reflexivity|]; skip_quiet.
  all: apply yields_write_then; [exact Hm2 | apply yields_debug_print].
Qed.

Lemma sosfilt1_nil (filt : sos) : sosfilt1 filt [] = [].
Proof.
  unfold sosfilt1; induction filt as [|s filt IH]; simpl; [reflexivity | exact IH].
Qed.

Lemma aborts_write_wav_file {B : Type} (sig : signal) (file : string) (Fs : Z)
  (flag : bool) (k : unit -> py B) (e : exn) :
  np_max sig = Raise e -> aborts (bind (write_wav_file sig file Fs flag) k).
Proof.
  intros Hm; exists e.
  apply yields_bind_raise, yields_write_wav_file_raise; exact Hm.
Qed.

(** On the empty signal the run with one band ends in an exception before a
    file is written: at the latest [np.max] in [write_wav_file] raises
    ValueError on the empty scrambled buffer. *)
Lemma empty_signal_aborts `{Numerics} (mode : Z) (filename : string) (Fs : Z)
  (rate : Q) (debug : bool) (sp : speech_parameters) :
  read_wav_file Fs [] = Ok sp ->
  aborts (scrambler mode filename sp rate 1 debug).
Proof.
  unfold read_wav_file; destruct (Fs =? 0); [discriminate|].
  intros Hread; inversion Hread; subst sp; clear Hread.
  unfold scrambler, scrambler_with; cbn [sp_Fs sp_Ts sp_duration sp_x sp_t].
  eapply aborts_skip; [apply yields_debug_print|]; cbv beta zeta.
  eapply aborts_skip; [apply yields_debug_print|]; cbv beta.
  destruct (if mode =? 0 then Some "Direct"%string
            else if mode =? 1 then Some "Gap Detection"%string
            else if mode =? 2 then Some "Combo"%string else None) as [mode_str|];
    [|apply aborts_local_unbound].
  eapply aborts_skip; [apply (yields_local (Some mode_str))|]; cbv beta.
  eapply aborts_skip; [apply yields_debug_print|]; cbv beta.
  eapply aborts_skip; [apply yields_debug_print|]; cbv beta.
  eapply aborts_skip; [apply yields_time_split|]; cbv beta.
  eapply aborts_skip; [apply yields_debug_print|]; cbv beta.
  eapply aborts_skip; [apply (yields_lift (Ok [remove_dc (Arr1 [])]))|]; cbv beta.
  eapply aborts_skip; [apply yields_debug_print|]; cbv beta.
  eapply aborts_skip; [apply (yields_lift (Ok [carrier 2632 (Arr1 [])]))|]; cbv beta.
  apply aborts_lift; intros lpfs Hlp.
  rewrite (proj2 (generate_single (Arr1 []) Fs)) in Hlp.
  destruct (lpfilter 2632 Fs) as [f|]; simpl in Hlp; [|discriminate].
  inversion Hlp; subst lpfs; clear Hlp.
  eapply aborts_skip; [apply yields_debug_print|]; cbv beta.
  eapply aborts_skip;
    [apply (yields_lift (Ok [Arr1 (sosfilt1 f [])]))|]; cbv beta.
  eapply aborts_skip;
    [apply (yields_lift (Ok (Some (Arr1 (sosfilt1 f [])))))|]; cbv beta.
  eapply aborts_skip; [apply yields_debug_print|]; cbv beta.
  eapply aborts_skip; [apply (yields_local (Some _))|]; cbv beta.
  eapply aborts_write_wav_file.
  rewrite sosfilt1_nil; reflexivity.
Qed.




(** ** The round trip *)




Lemma biquad_zero (s : section) (z0 z1 : Q) (x : list Q) :
  (z0 == 0)%Q -> (z1 == 0)%Q -> all_zero x -> all_zero (biquad s z0 z1 x).
Proof.
  unfold all_zero; intros H0 H1 Hx; revert z0 z1 H0 H1.
  induction Hx as [|xn x Hxn _ IH]; intros z0 z1 H0 H1; simpl; constructor.
  - rewrite Hxn, H0; ring.
  - apply IH.
    + rewrite Hxn, H0, H1; ring.
    + rewrite Hxn, H0; ring.
Qed.

Lemma sosfilt1_zero (filt : sos) (x : list Q) :
  all_zero x -> all_zero (sosfilt1 filt x).
Proof.
  unfold sosfilt1; revert x; induction filt as [|s filt IH]; intros x Hx; simpl.
  - exact Hx.
  - apply IH, biquad_zero; [reflexivity | reflexivity | exact Hx].
Qed.








(** * Further properties of the code *)

(** ** DC removal *)

Lemma flatten_np_map {A B : Type} (f : A -> B) (a : ndarray A) :
  flatten (np_map f a) = map f (flatten a).
Proof.
  destruct a as [v|m]; simpl; [reflexivity|].
  induction m as [|r m IH]; simpl; [reflexivity|].
  rewrite map_app, IH; reflexivity.
Qed.





(** ** Indexing and [shuffle] *)

Lemma getitem_index_bad {A : Type} (l : list A) (i : Z) :
  index_ok (length l) i = false -> getitem l i = Raise IndexError.
Proof.
  unfold index_ok, getitem; intros Hi.
  apply andb_false_iff in Hi.
  destruct (Z.ltb_spec i 0) as [Hneg|Hpos].
  - destruct Hi as [Hi|Hi]; [apply Z.leb_gt in Hi | apply Z.ltb_ge in Hi; lia].
    replace (0 <=? i + Z.of_nat (length l)) with false
      by (symmetry; apply Z.leb_gt; lia).
    reflexivity.
  - destruct Hi as [Hi|Hi]; [apply Z.leb_gt in Hi; lia | apply Z.ltb_ge in Hi].
    replace (i <? Z.of_nat (length l)) with false by (symmetry; apply Z.ltb_ge; lia).
    rewrite andb_false_r; reflexivity.
Qed.

Lemma getitem_index_ok {A : Type} (l : list A) (i : Z) :
  index_ok (length l) i = true -> exists a, getitem l i = Ok a.
Proof.
  unfold index_ok; intros Hi.
  apply andb_true_iff in Hi; destruct Hi as [Hlo Hhi].
  apply Z.leb_le in Hlo; apply Z.ltb_lt in Hhi.
  unfold getitem.
  set (j := if i <? 0 then i + Z.of_nat (length l) else i).
  assert (Hj : 0 <= j < Z.of_nat (length l))
    by (unfold j; destruct (Z.ltb_spec i 0); lia).
  replace (0 <=? j) with true by (symmetry; apply Z.leb_le; lia).
  replace (j <? Z.of_nat (length l)) with true by (symmetry; apply Z.ltb_lt; lia).
  simpl.
  destruct (nth_error l (Z.to_nat j)) as [a|] eqn:E; [exists a; reflexivity|].
  apply nth_error_None in E; lia.
Qed.

(** [shuffle] returns one band per entry of the book when every entry is an
    index the list accepts ([-n <= i < n]), and raises IndexError as soon as
    one is not. *)
Theorem shuffle_index_errors {A : Type} (bands : list A) (book : list Z) :
  if forallb (index_ok (length bands)) book
  then exists l, shuffle bands book = Ok l /\ length l = length book
  else shuffle bands book = Raise IndexError.
Proof.
  unfold shuffle; induction book as [|i book IH]; simpl.
  - exists []; split; reflexivity.
  - destruct (index_ok (length bands) i) eqn:Hi; simpl.
    + destruct (getitem_index_ok bands i Hi) as [a ->]; simpl.
      destruct (forallb (index_ok (length bands)) book).
      * destruct IH as (l & -> & Hlen); exists (a :: l); simpl.
        split; [reflexivity | rewrite Hlen; reflexivity].
      * rewrite IH; reflexivity.
    + rewrite (getitem_index_bad bands i Hi); reflexivity.
Qed.

Lemma shuffle_Forall2 {A : Type} (bands : list A) (book : list Z) (l : list A) :
  shuffle bands book = Ok l <-> Forall2 (fun i a => getitem bands i = Ok a) book l.
Proof.
  unfold shuffle; revert l; induction book as [|i book IH]; intros l; simpl.
  - split; [intros E; inversion E; constructor | intros F; inversion F; reflexivity].
  - split.
    + destruct (getitem bands i) as [a|] eqn:Ea; simpl; [|discriminate].
      destruct (mapM _ book) as [bs|] eqn:Eb; simpl; [|discriminate].
      intros E; inversion E; subst; constructor; [exact Ea | apply IH; reflexivity].
    + intros F; inversion F as [|? a ? bs Ha Hbs]; subst.
      rewrite Ha; simpl.
      apply IH in Hbs; rewrite Hbs; reflexivity.
Qed.

Lemma Forall2_nth_error {A B : Type} (R : A -> B -> Prop) (l : list A) (l' : list B)
  (k : nat) (x : A) :
  Forall2 R l l' -> nth_error l k = Some x ->
  exists y, nth_error l' k = Some y /\ R x y.
Proof.
  intros F; revert k; induction F as [|a b l l' Hab _ IH]; intros k Hk.
  - destruct k; discriminate.
  - destruct k as [|k]; simpl in *.
    + inversion Hk; subst; exists b; split; [reflexivity | exact Hab].
    + apply IH; exact Hk.
Qed.

Lemma getitem_Ok_nth_error {A : Type} (l : list A) (i : Z) (a : A) :
  getitem l i = Ok a <->
  index_ok (length l) i = true
  /\ nth_error l (Z.to_nat (if i <? 0 then i + Z.of_nat (length l) else i)) = Some a.
Proof.
  split.
  - intros E.
    destruct (index_ok (length l) i) eqn:Hi;
      [|rewrite (getitem_index_bad l i Hi) in E; discriminate].
    split; [reflexivity|].
    unfold getitem in E.
    destruct ((0 <=? _) && _); [|discriminate].
    destruct (nth_error l _) as [b|]; [|discriminate].
    inversion E; reflexivity.
  - intros [Hi Hn]; unfold getitem.
    unfold index_ok in Hi; apply andb_true_iff in Hi; destruct Hi as [Hlo Hhi].
    apply Z.leb_le in Hlo; apply Z.ltb_lt in Hhi.
    set (j := if i <? 0 then i + Z.of_nat (length l) else i) in *.
    assert (Hj : 0 <= j < Z.of_nat (length l))
      by (unfold j; destruct (Z.ltb_spec i 0); lia).
    replace (0 <=? j) with true by (symmetry; apply Z.leb_le; lia).
    replace (j <? Z.of_nat (length l)) with true by (symmetry; apply Z.ltb_lt; lia).
    simpl; rewrite Hn; reflexivity.
Qed.

(** Indexing commutes with a position-wise relation between two lists. *)
Lemma Forall2_getitem {A B : Type} (R : A -> B -> Prop) (l : list A) (l' : list B)
  (i : Z) (x : A) :
  Forall2 R l l' -> getitem l i = Ok x -> exists y, getitem l' i = Ok y /\ R x y.
Proof.
  intros F E.
  pose proof (Forall2_length F) as Hlen.
  apply getitem_Ok_nth_error in E; destruct E as [Hi Hn].
  destruct (Forall2_nth_error R l l' _ x F Hn) as (y & Hy & Hxy).
  exists y; split; [|exact Hxy].
  apply getitem_Ok_nth_error; rewrite <- Hlen; split; assumption.
Qed.

Lemma shuffle_in_range {A : Type} (bands : list A) (book : list Z) :
  forallb (index_ok (length bands)) book = true ->
  exists l, shuffle bands book = Ok l.
Proof.
  unfold shuffle; induction book as [|i book IH]; simpl; intros Hb.
  - exists []; reflexivity.
  - apply andb_true_iff in Hb; destruct Hb as [Hi Hb].
    destruct (getitem_index_ok bands i Hi) as [a ->]; simpl.
    destruct (IH Hb) as [l ->]; exists (a :: l); reflexivity.
Qed.

Lemma Forall2_seq_suffix {A : Type} (T : Z -> A -> Prop) (S : Z -> nat -> Prop)
  (pre l : list A) (q : list Z) :
  (forall j i a, S j i -> nth_error (pre ++ l) i = Some a -> T j a) ->
  Forall2 S q (seq (length pre) (length l)) ->
  Forall2 T q l.
Proof.
  intros HT; revert pre q HT; induction l as [|a l IH]; intros pre q HT F; simpl in F.
  - inversion F; constructor.
  - inversion F as [|j ? q' ? Hj Hq]; subst; constructor.
    + apply (HT j (length pre) a Hj).
      rewrite nth_error_app2 by lia; rewrite Nat.sub_diag; reflexivity.
    + apply (IH (pre ++ [a])).
      * intros j' i a' Hs Hn; apply (HT j' i a' Hs).
        rewrite <- app_assoc in Hn; exact Hn.
      * rewrite length_app; simpl; rewrite Nat.add_1_r; exact Hq.
Qed.

(** Shuffling with a book [p] and then with a book [q] that inverts it
    ([p[q[i]] = i] for every position [i]) gives the bands back in their
    original order. *)
Theorem shuffle_inverse_restores {A : Type} (bands : list A) (p q : list Z)
  (Hp : forallb (index_ok (length bands)) p = true)
  (Hq : Forall2 (fun j i => getitem p j = Ok (Z.of_nat i)) q (seq 0 (length bands))) :
  exists shuffled,
    shuffle bands p = Ok shuffled /\ shuffle shuffled q = Ok bands.
Proof.
  destruct (shuffle_in_range bands p Hp) as [shuffled Hs].
  exists shuffled; split; [exact Hs|].
  apply shuffle_Forall2 in Hs.
  apply shuffle_Forall2.
  apply (Forall2_seq_suffix _ (fun j i => getitem p j = Ok (Z.of_nat i)) [] bands q);
    [|exact Hq].
  intros j i a Hj Hn; simpl in Hn.
  destruct (Forall2_getitem _ p shuffled j (Z.of_nat i) Hs Hj) as (y & Hy & Hb).
  rewrite Hy; f_equal.
  apply getitem_Ok_nth_error in Hb; destruct Hb as [_ Hb].
  replace (Z.of_nat i <? 0) with false in Hb by (symmetry; apply Z.ltb_ge; lia).
  rewrite Nat2Z.id in Hb; congruence.
Qed.

Lemma shuffle_inverse_restores_witness :
  exists shuffled,
    shuffle ["low"; "mid"; "high"]%string [2; 0; 1] = Ok shuffled
    /\ shuffle shuffled [1; -1; 0] = Ok ["low"; "mid"; "high"]%string.
Proof.
  apply (shuffle_inverse_restores ["low"; "mid"; "high"]%string [2; 0; 1] [1; -1; 0]).
  - reflexivity.
  - repeat constructor.
Defined.

(** ** Carriers and filters per band *)

Lemma mapM_Ok_map {A B : Type} (f : A -> result B) (g : A -> B) (l : list A) :
  (forall a, In a l -> f a = Ok (g a)) -> mapM f l = Ok (map g l).
Proof.
  induction l as [|a l IH]; simpl; intros Hf; [reflexivity|].
  rewrite (Hf a (or_introl eq_refl)); simpl.
  rewrite IH by (intros b Hb; apply Hf; right; exact Hb); reflexivity.
Qed.

Lemma getitem_map_range {B : Type} (g : Z -> B) (n i : Z) :
  0 <= i < n -> getitem (map g (range n)) i = Ok (g i).
Proof.
  intros Hi.
  rewrite (getitem_nth _ i (g 0)) by (rewrite length_map, length_range; lia).
  f_equal; rewrite map_nth; f_equal.
  unfold range.
  change 0 with (Z.of_nat 0); rewrite map_nth, seq_nth by lia.
  lia.
Qed.

Lemma range_cons (n : Z) :
  1 <= n -> range n = 0 :: map Z.of_nat (seq 1 (Z.to_nat n - 1)).
Proof.
  intros Hn; unfold range.
  replace (Z.to_nat n) with (S (Z.to_nat n - 1)) at 1 by lia.
  reflexivity.
Qed.

(** The carrier frequency of band [i]: the table is read cyclically. *)
Lemma standard_carrier_lookup (i : Z) :
  exists f, getitem standard_carriers (i mod Z.of_nat (length standard_carriers)) = Ok f
            /\ 2632 <= f <= 3729.
Proof.
  change (Z.of_nat (length standard_carriers)) with 8.
  pose proof (Z.mod_pos_bound i 8 ltac:(lia)) as Hm.
  assert (Hk : i mod 8 = 0 \/ i mod 8 = 1 \/ i mod 8 = 2 \/ i mod 8 = 3
               \/ i mod 8 = 4 \/ i mod 8 = 5 \/ i mod 8 = 6 \/ i mod 8 = 7) by lia.
  destruct Hk as [-> | [-> | [-> | [-> | [-> | [-> | [-> | ->]]]]]]];
    eexists; (split; [reflexivity | lia]).
Qed.

(** [generate_carriers] never raises: it returns one carrier per band (none
    for a count of 0 or less), each as long as the time vector; band [i]
    uses the table frequency at index [i mod 8], so band [i + 8] has the
    carrier of band [i]. *)
Theorem generate_carriers_cycle `{Numerics} (num_bands : Z) (t : signal) :
  exists carriers,
    generate_carriers num_bands t = Ok carriers
    /\ length carriers = Z.to_nat num_bands
    /\ (forall i, 0 <= i < num_bands ->
          exists f, getitem standard_carriers (i mod 8) = Ok f
                    /\ getitem carriers i = Ok (carrier f t)
                    /\ length (flatten (carrier f t)) = length (flatten t))
    /\ (forall i, 0 <= i -> i + 8 < num_bands ->
          getitem carriers (i + 8) = getitem carriers i).
Proof.
  set (g := fun i : Z =>
              carrier (nth (Z.to_nat (i mod 8)) standard_carriers 0) t).
  assert (Hlook : forall i, getitem standard_carriers (i mod 8)
                            = Ok (nth (Z.to_nat (i mod 8)) standard_carriers 0)).
  { intros i; apply getitem_nth.
    pose proof (Z.mod_pos_bound i 8 ltac:(lia)); simpl; lia. }
  assert (E : generate_carriers num_bands t = Ok (map g (range num_bands))).
  { unfold generate_carriers; apply mapM_Ok_map; intros i _.
    change (Z.of_nat (length standard_carriers)) with 8.
    rewrite Hlook; reflexivity. }
  exists (map g (range num_bands)); repeat split.
  - exact E.
  - unfold range; rewrite !length_map; apply length_seq.
  - intros i Hi; eexists; split; [apply Hlook|]; split.
    + apply (getitem_map_range g num_bands i Hi).
    + unfold carrier; rewrite flatten_np_map; apply length_map.
  - intros i Hi0 Hi8.
    rewrite !getitem_map_range by lia.
    unfold g; replace ((i + 8) mod 8) with (i mod 8); [reflexivity|].
    rewrite <- (Z.mul_1_l 8) at 2; rewrite Z.mod_add by lia; reflexivity.
Qed.

Lemma generate_carriers_cycle_witness :
  exists carriers,
    @generate_carriers sample_numerics 10 (Arr1 [0; 1 # 4]%Q) = Ok carriers
    /\ length carriers = 10%nat
    /\ getitem carriers 9 = getitem carriers 1.
Proof.
  destruct (@generate_carriers_cycle sample_numerics 10 (Arr1 [0; 1 # 4]%Q))
    as (carriers & E & Hlen & _ & Hcycle).
  exists carriers; repeat split; [exact E | exact Hlen|].
  apply (Hcycle 1); lia.
Defined.

Lemma lpfilter_spec `{Numerics} (cutoff fs : Z) :
  lpfilter cutoff fs
  = if (0 <? cutoff) && (2 * cutoff <? fs)
    then Ok (cheby1_design 5 4%Q [cutoff] Lowpass fs)
    else Raise ValueError.
Proof.
  unfold lpfilter, cheby1; simpl forallb; simpl increasing.
  rewrite !andb_true_r; reflexivity.
Qed.

(** [generate_lpfilters] designs every low-pass filter when the sample rate
    exceeds twice the highest table frequency (3729 Hz), whatever the band
    count; at a rate of 5264 Hz or less it raises ValueError as soon as one
    band is asked for, the first cutoff (2632 Hz) not lying below Nyquist. *)
Theorem generate_lpfilters_rate `{Numerics} (num_bands fs : Z) :
  (7458 < fs ->
     exists lpfs,
       generate_lpfilters num_bands fs = Ok lpfs
       /\ length lpfs = Z.to_nat num_bands
       /\ (forall i, 0 <= i < num_bands ->
             exists f, getitem standard_carriers (i mod 8) = Ok f
                       /\ getitem lpfs i = Ok (cheby1_design 5 4%Q [f] Lowpass fs)))
  /\ (1 <= num_bands -> fs <= 5264 ->
        generate_lpfilters num_bands fs = Raise ValueError).
Proof.
  split.
  - intros Hfs.
    set (g := fun i : Z =>
                cheby1_design 5 4%Q
                  [nth (Z.to_nat (i mod 8)) standard_carriers 0] Lowpass fs).
    assert (Hlook : forall i, getitem standard_carriers (i mod 8)
                              = Ok (nth (Z.to_nat (i mod 8)) standard_carriers 0)).
    { intros i; apply getitem_nth.
      pose proof (Z.mod_pos_bound i 8 ltac:(lia)); simpl; lia. }
    assert (E : generate_lpfilters num_bands fs = Ok (map g (range num_bands))).
    { unfold generate_lpfilters; apply mapM_Ok_map; intros i _.
      destruct (standard_carrier_lookup i) as (f & Hf & Hbound).
      change (Z.of_nat (length standard_carriers)) with 8 in *.
      rewrite Hf; simpl; rewrite lpfilter_spec.
      replace (0 <? f) with true by (symmetry; apply Z.ltb_lt; lia).
      replace (2 * f <? fs) with true by (symmetry; apply Z.ltb_lt; lia).
      rewrite Hlook in Hf; inversion Hf; reflexivity. }
    exists (map g (range num_bands)); repeat split.
    + exact E.
    + unfold range; rewrite !length_map; apply length_seq.
    + intros i Hi; eexists; split; [apply Hlook|].
      apply (getitem_map_range g num_bands i Hi).
  - intros Hn Hfs; unfold generate_lpfilters.
    rewrite (range_cons num_bands Hn); simpl mapM.
    change (getitem standard_carriers (0 mod Z.of_nat (length standard_carriers)))
      with (@Ok Z 2632).
    simpl rbind; rewrite (lpfilter_refused fs Hfs); reflexivity.
Qed.

Lemma generate_lpfilters_rate_witness :
  (exists lpfs, @generate_lpfilters sample_numerics 12 8000 = Ok lpfs
                /\ length lpfs = 12%nat)
  /\ @generate_lpfilters sample_numerics 1 4000 = Raise ValueError.
Proof.
  split.
  - destruct (proj1 (@generate_lpfilters_rate sample_numerics 12 8000) ltac:(lia))
      as (lpfs & E & Hlen & _).
    exists lpfs; split; [exact E | exact Hlen].
  - apply (proj2 (@generate_lpfilters_rate sample_numerics 1 4000)); lia.
Defined.

(** ** Building the filter bank *)

(** [bandspec] never returns a value: an empty list of bands divides by
    zero, and on any other list the first call of [spectrum] raises
    NameError. *)
Theorem bandspec_never_returns (xs : list signal) (hl : Z) :
  bandspec xs hl
  = match xs with
    | [] => Raise ZeroDivisionError
    | _ :: _ => Raise NameError
    end.
Proof.
  destruct xs as [|x xs]; [reflexivity|].
  apply bandspec_raises; discriminate.
Qed.

Lemma cheby1_bandpass_spec `{Numerics} (lo hi fs : Z) :
  cheby1 5 4%Q [lo; hi] Bandpass fs
  = if (0 <? lo) && (0 <? hi) && (lo <? hi) && (2 * lo <? fs) && (2 * hi <? fs)
    then Ok (cheby1_design 5 4%Q [lo; hi] Bandpass fs)
    else Raise ValueError.
Proof.
  unfold cheby1; simpl forallb; simpl increasing.
  rewrite !andb_true_r, !andb_assoc; reflexivity.
Qed.

(** [getfilts] builds its [n] band-pass filters exactly when
    [step = int((fs / 2) / n)] is at least 3: with a smaller step the first
    band, from 1 Hz to [step - 1] Hz, has no increasing pair of cutoffs and
    the design raises ValueError. *)
Theorem getfilts_needs_step_3 `{Numerics} (n fs : Z) (Hn : 1 <= n) (Hfs : 0 <= fs) :
  let step := Z.quot fs (2 * n) in
  (3 <= step ->
     exists filts,
       getfilts n fs = Ok filts
       /\ Z.of_nat (length filts) = n
       /\ (forall b, 0 <= b < n ->
             getitem filts b
             = Ok (cheby1_design 5 4%Q
                     [if b =? 0 then 1 else b * step; (b + 1) * step - 1]
                     Bandpass fs)))
  /\ (step < 3 -> getfilts n fs = Raise ValueError).
Proof.
  intros step.
  pose proof (step_bounds n fs Hn Hfs) as Hb; fold step in Hb.
  rewrite getfilts_from_cutoffs, getfilts_cutoffs_eq by lia; fold step; simpl rbind.
  split.
  - intros Hstep.
    set (g := fun b : Z =>
                cheby1_design 5 4%Q
                  [if b =? 0 then 1 else b * step; (b + 1) * step - 1] Bandpass fs).
    assert (E : mapM (fun c => cheby1 5 4%Q [fst c; snd c] Bandpass fs)
                  (map (band_edge step) (range n))
                = Ok (map g (range n))).
    { assert (E' : mapM (fun c => cheby1 5 4%Q [fst c; snd c] Bandpass fs)
                     (map (band_edge step) (range n))
                   = Ok (map (fun c => cheby1_design 5 4%Q [fst c; snd c] Bandpass fs)
                           (map (band_edge step) (range n)))).
      { apply mapM_Ok_map; intros c Hc.
        apply in_map_iff in Hc; destruct Hc as (b & <- & Hin).
        unfold range in Hin; apply in_map_iff in Hin; destruct Hin as (k & <- & Hk).
        apply in_seq in Hk.
        rewrite cheby1_bandpass_spec; unfold band_edge, fst, snd.
        assert (Hk' : 0 <= Z.of_nat k < n) by lia.
        assert (Hhi : (Z.of_nat k + 1) * step <= n * step) by nia.
        destruct (Z.eqb_spec (Z.of_nat k) 0) as [Hz|Hz].
        - replace (0 <? 1) with true by reflexivity.
          replace (0 <? (Z.of_nat k + 1) * step - 1) with true
            by (symmetry; apply Z.ltb_lt; nia).
          replace (1 <? (Z.of_nat k + 1) * step - 1) with true
            by (symmetry; apply Z.ltb_lt; nia).
          replace (2 * 1 <? fs) with true by (symmetry; apply Z.ltb_lt; nia).
          replace (2 * ((Z.of_nat k + 1) * step - 1) <? fs) with true
            by (symmetry; apply Z.ltb_lt; nia).
          reflexivity.
        - replace (0 <? Z.of_nat k * step) with true
            by (symmetry; apply Z.ltb_lt; nia).
          replace (0 <? (Z.of_nat k + 1) * step - 1) with true
            by (symmetry; apply Z.ltb_lt; nia).
          replace (Z.of_nat k * step <? (Z.of_nat k + 1) * step - 1) with true
            by (symmetry; apply Z.ltb_lt; nia).
          replace (2 * (Z.of_nat k * step) <? fs) with true
            by (symmetry; apply Z.ltb_lt; nia).
          replace (2 * ((Z.of_nat k + 1) * step - 1) <? fs) with true
            by (symmetry; apply Z.ltb_lt; nia).
          reflexivity. }
      rewrite map_map in E'; exact E'. }
    exists (map g (range n)); repeat split.
    + exact E.
    + rewrite length_map; apply length_range; lia.
    + intros b Hbn; apply (getitem_map_range g n b Hbn).
  - intros Hstep.
    assert (H0 : cheby1 5 4%Q [fst (band_edge step 0); snd (band_edge step 0)]
                   Bandpass fs = Raise ValueError).
    { rewrite cheby1_bandpass_spec; unfold band_edge, fst, snd.
      change (0 =? 0) with true; cbv iota.
      replace (1 <? (0 + 1) * step - 1) with false by (symmetry; apply Z.ltb_ge; lia).
      destruct (0 <? 1), (0 <? (0 + 1) * step - 1), (2 * 1 <? fs),
        (2 * ((0 + 1) * step - 1) <? fs); reflexivity. }
    rewrite (range_cons n Hn); cbn [map mapM].
    rewrite H0; reflexivity.
Qed.

Lemma getfilts_needs_step_3_witness :
  (exists filts, @getfilts sample_numerics 4 8000 = Ok filts
                 /\ Z.of_nat (length filts) = 4)
  /\ @getfilts sample_numerics 2000 8000 = Raise ValueError.
Proof.
  split.
  - destruct (proj1 (@getfilts_needs_step_3 sample_numerics 4 8000
                       ltac:(lia) ltac:(lia)) ltac:(vm_compute; discriminate))
      as (filts & E & Hlen & _).
    exists filts; split; [exact E | exact Hlen].
  - apply (proj2 (@getfilts_needs_step_3 sample_numerics 2000 8000
                    ltac:(lia) ltac:(lia))).
    reflexivity.
Defined.

(** ** Reading the input *)

Lemma linspace_nth (d : Q) (n k : nat) :
  (k < n)%nat ->
  nth k (np_linspace0 d n) 0%Q
  = (inject_Z (Z.of_nat k) * (d / inject_Z (Z.of_nat (n - 1))))%Q.
Proof.
  intros Hk; unfold np_linspace0.
  set (h := fun i : nat => (inject_Z (Z.of_nat i) * (d / inject_Z (Z.of_nat (n - 1))))%Q).
  rewrite (nth_indep _ 0%Q (h 0%nat)) by (rewrite length_map, length_seq; exact Hk).
  rewrite map_nth, seq_nth by exact Hk; reflexivity.
Qed.

(** For a recording of at least two samples at a positive rate,
    [read_wav_file] returns a time vector with one instant per sample, from
    0 to the duration [len(x) / Fs] inclusive.  Its instants are therefore
    [duration / (len(x) - 1)] apart, which is not the sample period
    [Ts = 1 / Fs]. *)
Theorem read_wav_file_time_vector (Fs : Z) (x : list Q)
  (HFs : 0 < Fs) (Hx : (2 <= length x)%nat) :
  exists (sp : speech_parameters) (t : list Q),
    read_wav_file Fs x = Ok sp
    /\ sp_x sp = Arr1 x /\ sp_t sp = Arr1 t /\ sp_Fs sp = Fs
    /\ length t = length x
    /\ (sp_Ts sp * inject_Z (Z.of_nat (length x)) == sp_duration sp)%Q
    /\ (nth 0 t 0 == 0)%Q
    /\ (nth (length x - 1) t 0 == sp_duration sp)%Q
    /\ (forall k, (S k < length x)%nat ->
          (nth (S k) t 0 - nth k t 0
           == sp_duration sp / inject_Z (Z.of_nat (length x - 1)))%Q)
    /\ ~ (sp_duration sp / inject_Z (Z.of_nat (length x - 1)) == sp_Ts sp)%Q.
Proof.
  rewrite read_wav_file_ok by lia.
  eexists _, _; split; [reflexivity|]; cbn [sp_x sp_t sp_Fs sp_Ts sp_duration].
  set (n := length x) in *.
  assert (HF : ~ (inject_Z Fs == 0)%Q)
    by (change 0%Q with (inject_Z 0); rewrite inject_Z_injective; lia).
  assert (HM : ~ (inject_Z (Z.of_nat (n - 1)) == 0)%Q)
    by (change 0%Q with (inject_Z 0); rewrite inject_Z_injective; lia).
  assert (HN : (inject_Z (Z.of_nat n) == inject_Z (Z.of_nat (n - 1)) + 1)%Q).
  { change 1%Q with (inject_Z 1).
    rewrite <- inject_Z_plus; apply inject_Z_injective; lia. }
  repeat split.
  - unfold np_linspace0; rewrite length_map; apply length_seq.
  - field; exact HF.
  - rewrite linspace_nth by lia; simpl; ring.
  - rewrite linspace_nth by lia; apply Qmult_div_r; exact HM.
  - intros k Hk; rewrite !linspace_nth by lia.
    rewrite Nat2Z.inj_succ; unfold Z.succ; rewrite inject_Z_plus.
    unfold n.
    set (A := (inject_Z (Z.of_nat (length x)) / inject_Z Fs
               / inject_Z (Z.of_nat (length x - 1)))%Q).
    change (inject_Z 1) with 1%Q; ring.
  - intros Heq.
    assert (E : (inject_Z (Z.of_nat n) == inject_Z (Z.of_nat (n - 1)))%Q).
    { transitivity ((inject_Z (Z.of_nat n) / inject_Z Fs / inject_Z (Z.of_nat (n - 1)))
                    * (inject_Z Fs * inject_Z (Z.of_nat (n - 1))))%Q.
      - field; split; assumption.
      - rewrite Heq; field; exact HF. }
    rewrite inject_Z_injective in E; lia.
Qed.

Lemma read_wav_file_time_vector_witness :
  exists (sp : speech_parameters) (t : list Q),
    read_wav_file 8000 [1; -1; 3; 2]%Q = Ok sp
    /\ sp_t sp = Arr1 t
    /\ (nth 3 t 0 == sp_duration sp)%Q
    /\ ~ (sp_duration sp / inject_Z 3 == sp_Ts sp)%Q.
Proof.
  destruct (read_wav_file_time_vector 8000 [1; -1; 3; 2]%Q ltac:(lia) ltac:(simpl; lia))
    as (sp & t & E & _ & Ht & _ & _ & _ & _ & Hlast & _ & Hstep).
  exists sp, t; repeat split; assumption.
Defined.

(** ** Writing the output *)

Lemma Qmax_ge_l (a b : Q) : (a <= Qmax a b)%Q.
Proof.
  unfold Qmax; destruct (Qle_bool a b) eqn:E;
    [apply Qle_bool_iff; exact E | apply Qle_refl].
Qed.

Lemma Qmax_ge_r (a b : Q) : (b <= Qmax a b)%Q.
Proof.
  unfold Qmax; destruct (Qle_bool a b) eqn:E; [apply Qle_refl|].
  apply Qlt_le_weak, Qnot_le_lt; rewrite <- Qle_bool_iff, E; discriminate.
Qed.

Lemma fold_Qmax_ge (xs : list Q) (x : Q) :
  (x <= fold_left Qmax xs x)%Q
  /\ Forall (fun y => (y <= fold_left Qmax xs x)%Q) xs.
Proof.
  revert x; induction xs as [|y xs IH]; intros x; simpl.
  - split; [apply Qle_refl | constructor].
  - destruct (IH (Qmax x y)) as [Hm Hxs]; split; [|constructor].
    + apply Qle_trans with (Qmax x y); [apply Qmax_ge_l | exact Hm].
    + apply Qle_trans with (Qmax x y); [apply Qmax_ge_r | exact Hm].
    + exact Hxs.
Qed.

Lemma fold_Qmax_in (xs : list Q) (x : Q) : In (fold_left Qmax xs x) (x :: xs).
Proof.
  revert x; induction xs as [|y xs IH]; intros x; simpl; [left; reflexivity|].
  destruct (IH (Qmax x y)) as [E|Hin]; [|right; right; exact Hin].
  rewrite <- E; unfold Qmax; destruct (Qle_bool x y);
    [right; left; reflexivity | left; reflexivity].
Qed.

(** [np.max] returns a sample of the array that no sample exceeds. *)
Lemma np_max_spec (sig : signal) (m : Q) :
  np_max sig = Ok m ->
  In m (flatten sig) /\ Forall (fun y => (y <= m)%Q) (flatten sig).
Proof.
  unfold np_max; destruct (flatten sig) as [|x xs]; [discriminate|].
  intros E; inversion E; subst m; clear E.
  split; [apply fold_Qmax_in|].
  destruct (fold_Qmax_ge xs x) as [Hx Hxs]; constructor; assumption.
Qed.

Lemma write_wav_file_run (sig : signal) (file : string) (Fs : Z) (flag : bool)
  (m : Q) (w : world) :
  np_max sig = Ok m ->
  write_wav_file sig file Fs flag w
  = (Ok tt,
     {| stdout := stdout w;
        wavs := wavs w
                ++ [{| wav_name := (strip_wav file
                                    ++ (if flag then "scrambled.wav"
                                        else "descrambled.wav"))%string;
                       wav_rate := Fs;
                       wav_data := np_map (np_div m) sig |}] |}).
Proof.
  intros Hm; unfold write_wav_file, bind, lift; rewrite Hm.
  destruct flag; reflexivity.
Qed.

Lemma np_div_finite (m x : Q) : ~ (m == 0)%Q -> np_div m x = Finite (x / m)%Q.
Proof.
  intros Hm; unfold np_div.
  destruct (Qeq_bool m 0) eqn:E; [apply Qeq_bool_iff in E; contradiction | reflexivity].
Qed.

(** When the largest sample is positive, [write_wav_file] writes one file
    with as many samples as the buffer, every one finite and at most 1, and
    the largest one exactly 1: the upper half of a peak normalisation. *)
Theorem write_wav_file_positive_peak (sig : signal) (file : string) (Fs : Z)
  (flag : bool) (m : Q) (w : world)
  (Hm : np_max sig = Ok m) (Hpos : (0 < m)%Q) :
  exists (name : string) (data : ndarray f32),
    write_wav_file sig file Fs flag w
    = (Ok tt,
       {| stdout := stdout w;
          wavs := wavs w ++ [{| wav_name := name; wav_rate := Fs; wav_data := data |}] |})
    /\ length (flatten data) = length (flatten sig)
    /\ Forall (fun s => exists q, s = Finite q /\ (q <= 1)%Q) (flatten data)
    /\ Exists (fun s => exists q, s = Finite q /\ (q == 1)%Q) (flatten data).
Proof.
  assert (Hnz : ~ (m == 0)%Q) by (intros E; rewrite E in Hpos; discriminate).
  destruct (np_max_spec sig m Hm) as [Hin Hle].
  eexists _, _; split; [apply (write_wav_file_run sig file Fs flag m w Hm)|].
  rewrite flatten_np_map; repeat split.
  - apply length_map.
  - apply Forall_forall; intros s Hs.
    apply in_map_iff in Hs; destruct Hs as (x & <- & Hx).
    exists (x / m)%Q; split; [apply np_div_finite; exact Hnz|].
    apply Qle_shift_div_r; [exact Hpos|].
    rewrite Qmult_1_l; rewrite Forall_forall in Hle; apply Hle; exact Hx.
  - apply Exists_exists; exists (np_div m m); split.
    + apply in_map; exact Hin.
    + exists (m / m)%Q; split; [apply np_div_finite; exact Hnz|].
      field; exact Hnz.
Qed.

Lemma write_wav_file_positive_peak_witness :
  exists (name : string) (data : ndarray f32),
    write_wav_file (Arr1 [1; -3; 2]%Q) "speech.wav" 8000 true empty_world
    = (Ok tt,
       {| stdout := stdout empty_world;
          wavs := wavs empty_world
                  ++ [{| wav_name := name; wav_rate := 8000; wav_data := data |}] |})
    /\ Forall (fun s => exists q, s = Finite q /\ (q <= 1)%Q) (flatten data).
Proof.
  destruct (write_wav_file_positive_peak (Arr1 [1; -3; 2]%Q) "speech.wav" 8000 true
              2%Q empty_world eq_refl eq_refl)
    as (name & data & E & _ & Hle & _).
  exists name, data; split; assumption.
Defined.

(** When every sample is negative, the largest sample is negative too and
    the division inverts the polarity: every written sample is finite and at
    least 1. *)
Theorem write_wav_file_negative_peak (sig : signal) (file : string) (Fs : Z)
  (flag : bool) (m : Q) (w : world)
  (Hm : np_max sig = Ok m) (Hneg : (m < 0)%Q) :
  exists (name : string) (data : ndarray f32),
    write_wav_file sig file Fs flag w
    = (Ok tt,
       {| stdout := stdout w;
          wavs := wavs w ++ [{| wav_name := name; wav_rate := Fs; wav_data := data |}] |})
    /\ Forall (fun x => (x < 0)%Q) (flatten sig)
    /\ Forall (fun s => exists q, s = Finite q /\ (1 <= q)%Q) (flatten data).
Proof.
  assert (Hnz : ~ (m == 0)%Q) by (intros E; rewrite E in Hneg; discriminate).
  destruct (np_max_spec sig m Hm) as [Hin Hle].
  rewrite Forall_forall in Hle.
  eexists _, _; split; [apply (write_wav_file_run sig file Fs flag m w Hm)|].
  rewrite flatten_np_map; split.
  - apply Forall_forall; intros x Hx.
    apply Qle_lt_trans with m; [apply Hle; exact Hx | exact Hneg].
  - apply Forall_forall; intros s Hs.
    apply in_map_iff in Hs; destruct Hs as (x & <- & Hx).
    exists (x / m)%Q; split; [apply np_div_finite; exact Hnz|].
    assert (E : (x / m == (- x) / (- m))%Q) by (field; exact Hnz).
    rewrite E; apply Qle_shift_div_l.
    + apply (Qplus_lt_l _ _ m); ring_simplify; exact Hneg.
    + rewrite Qmult_1_l; apply Qopp_le_compat, Hle; exact Hx.
Qed.

Lemma write_wav_file_negative_peak_witness :
  exists (name : string) (data : ndarray f32),
    write_wav_file (Arr1 [-1; -3; -2]%Q) "speech.wav" 8000 true empty_world
    = (Ok tt,
       {| stdout := stdout empty_world;
          wavs := wavs empty_world
                  ++ [{| wav_name := name; wav_rate := 8000; wav_data := data |}] |})
    /\ Forall (fun s => exists q, s = Finite q /\ (1 <= q)%Q) (flatten data).
Proof.
  destruct (write_wav_file_negative_peak (Arr1 [-1; -3; -2]%Q) "speech.wav" 8000 true
              (-1)%Q empty_world eq_refl eq_refl)
    as (name & data & E & _ & Hge).
  exists name, data; split; assumption.
Defined.

Lemma np_map_ext {A B : Type} (f g : A -> B) (a : ndarray A) :
  (forall x, f x = g x) -> np_map f a = np_map g a.
Proof.
  intros Hfg; destruct a as [v|m]; simpl; f_equal.
  - apply map_ext; exact Hfg.
  - apply map_ext; intros r; apply map_ext; exact Hfg.
Qed.

(** The two degenerate buffers.  An empty buffer has no largest sample:
    [write_wav_file] raises ValueError and leaves the world as it was.  A
    buffer whose largest sample is 0 is divided by zero: the file is written
    and holds non-finite samples only. *)
Theorem write_wav_file_degenerate (sig : signal) (file : string) (Fs : Z)
  (flag : bool) (w : world) :
  (flatten sig = [] -> write_wav_file sig file Fs flag w = (Raise ValueError, w))
  /\ (forall m, np_max sig = Ok m -> (m == 0)%Q ->
        exists name,
          write_wav_file sig file Fs flag w
          = (Ok tt,
             {| stdout := stdout w;
                wavs := wavs w
                        ++ [{| wav_name := name; wav_rate := Fs;
                               wav_data := np_map (fun _ => NonFinite) sig |}] |})).
Proof.
  split.
  - intros He; unfold write_wav_file, bind, lift, np_max; rewrite He; reflexivity.
  - intros m Hm Hz; eexists.
    rewrite (write_wav_file_run sig file Fs flag m w Hm).
    rewrite (np_map_ext (np_div m) (fun _ => NonFinite)); [reflexivity|].
    intros x; unfold np_div; apply Qeq_bool_iff in Hz; rewrite Hz; reflexivity.
Qed.

Lemma write_wav_file_degenerate_witness :
  write_wav_file (Arr1 []) "speech.wav" 8000 true empty_world
  = (Raise ValueError, empty_world)
  /\ exists name,
       write_wav_file (Arr1 [-2; 0; -1]%Q) "speech.wav" 8000 false empty_world
       = (Ok tt,
          {| stdout := stdout empty_world;
             wavs := wavs empty_world
                     ++ [{| wav_name := name; wav_rate := 8000;
                            wav_data := np_map (fun _ => NonFinite)
                                          (Arr1 [-2; 0; -1]%Q) |}] |}).
Proof.
  split.
  - apply (proj1 (write_wav_file_degenerate (Arr1 []) "speech.wav" 8000 true
                    empty_world) eq_refl).
  - apply (proj2 (write_wav_file_degenerate (Arr1 [-2; 0; -1]%Q) "speech.wav" 8000
                    false empty_world) 0%Q eq_refl); reflexivity.
Defined.

Lemma string_length_append (a b : string) :
  String.length (a ++ b) = (String.length a + String.length b)%nat.
Proof.
  induction a as [|c a IH]; simpl; [reflexivity | rewrite IH; reflexivity].
Qed.

Lemma substring_prefix (a b : string) : substring 0 (String.length a) (a ++ b) = a.
Proof.
  induction a as [|c a IH]; simpl; [destruct b; reflexivity | rewrite IH; reflexivity].
Qed.

Lemma strip_wav_extension (base ext : string) :
  String.length ext = 4%nat -> strip_wav (base ++ ext) = base.
Proof.
  intros Hext; unfold strip_wav.
  rewrite string_length_append, Hext, Nat.add_sub; apply substring_prefix.
Qed.

Lemma append_injective (a b c : string) : (a ++ b = a ++ c)%string -> b = c.
Proof.
  induction a as [|x a IH]; simpl; intros E; [exact E|].
  inversion E; apply IH; assumption.
Qed.

(** The output names.  For an input name that ends in a four-character
    extension, the scrambled and the descrambled file are named after what
    stands before the extension; a name of four characters or fewer leaves
    the bare suffixes; and whatever the input name, the two output names
    differ, so the second file never replaces the first. *)
Theorem write_wav_file_names (sig : signal) (Fs : Z) (m : Q) (w : world)
  (Hm : np_max sig = Ok m) :
  (forall (base ext : string) (flag : bool), String.length ext = 4%nat ->
     wavs (snd (write_wav_file sig (base ++ ext) Fs flag w))
     = wavs w
       ++ [{| wav_name := (base ++ (if flag then "scrambled.wav"
                                    else "descrambled.wav"))%string;
              wav_rate := Fs;
              wav_data := np_map (np_div m) sig |}])
  /\ (forall (file : string) (flag : bool), (String.length file <= 4)%nat ->
        wavs (snd (write_wav_file sig file Fs flag w))
        = wavs w
          ++ [{| wav_name := if flag then "scrambled.wav" else "descrambled.wav";
                 wav_rate := Fs;
                 wav_data := np_map (np_div m) sig |}])
  /\ (forall (file : string) (w1 w2 : world) (f1 f2 : wav),
        wavs (snd (write_wav_file sig file Fs true w1)) = wavs w1 ++ [f1] ->
        wavs (snd (write_wav_file sig file Fs false w2)) = wavs w2 ++ [f2] ->
        wav_name f1 <> wav_name f2).
Proof.
  repeat split.
  - intros base ext flag Hext.
    rewrite (write_wav_file_run sig _ Fs flag m w Hm); simpl.
    rewrite (strip_wav_extension base ext Hext); reflexivity.
  - intros file flag Hlen.
    rewrite (write_wav_file_run sig _ Fs flag m w Hm); simpl.
    unfold strip_wav; replace (String.length file - 4)%nat with 0%nat by lia.
    destruct file, flag; reflexivity.
  - intros file w1 w2 f1 f2 H1 H2.
    rewrite (write_wav_file_run sig file Fs true m w1 Hm) in H1.
    rewrite (write_wav_file_run sig file Fs false m w2 Hm) in H2.
    simpl in H1, H2.
    apply app_inv_head in H1, H2.
    inversion H1; inversion H2; subst; simpl.
    intros E; apply append_injective in E; discriminate.
Qed.

Lemma write_wav_file_names_witness :
  wavs (snd (write_wav_file (Arr1 [1; -3; 2]%Q) ("speech" ++ ".wav") 8000 true
               empty_world))
  = wavs empty_world
    ++ [{| wav_name := "speechscrambled.wav"; wav_rate := 8000;
           wav_data := np_map (np_div 2) (Arr1 [1; -3; 2]%Q) |}].
Proof.
  apply (proj1 (write_wav_file_names (Arr1 [1; -3; 2]%Q) 8000 2%Q empty_world eq_refl)
           "speech"%string ".wav"%string true eq_refl).
Defined.

(** ** The rate and the number of permutations *)

(** Whatever string and duration it is given, when [determine_rate] returns
    it has written no file, and the value is 0 (nothing printed), or the
    error value -1 (one line printed), or a number of seconds per change
    from 0.5 up to, not including, the duration (nothing printed). *)
Theorem determine_rate_range (rate_fractional : string) (duration : Q)
  (w w' : world) (r : Q)
  (Hrun : determine_rate rate_fractional duration w = (Ok r, w')) :
  wavs w' = wavs w
  /\ ((r = 0%Q /\ w' = w)
      \/ (r = (-1)%Q /\ exists msg, stdout w' = stdout w ++ [Text msg])
      \/ ((1 # 2 <= r)%Q /\ (r < duration)%Q /\ w' = w)).
Proof.
  unfold determine_rate, bind, lift in Hrun.
  destruct (getitem (split_on "/" rate_fractional) 0) as [p0|]; [|discriminate].
  destruct (py_int p0) as [num_changes|]; [|discriminate].
  destruct (getitem (split_on "/" rate_fractional) 1) as [p1|]; [|discriminate].
  destruct (py_int p1) as [seconds|]; [|discriminate].
  destruct ((num_changes =? 0) || (seconds =? 0)).
  - inversion Hrun; subst; split; [reflexivity | left; split; reflexivity].
  - set (rate := (inject_Z seconds / inject_Z num_changes)%Q) in *.
    destruct (Qle_bool (1 # 2) rate) eqn:Ehalf; simpl negb in Hrun; cbv iota in Hrun.
    + destruct (Qle_bool duration rate) eqn:Edur.
      * inversion Hrun; subst; split; [reflexivity|].
        right; left; split; [reflexivity | eexists; reflexivity].
      * inversion Hrun; subst; split; [reflexivity|].
        right; right; split; [apply Qle_bool_iff; exact Ehalf|].
        split; [|reflexivity].
        apply Qnot_le_lt; rewrite <- Qle_bool_iff, Edur; discriminate.
    + inversion Hrun; subst; split; [reflexivity|].
      right; left; split; [reflexivity | eexists; reflexivity].
Qed.

Lemma determine_rate_range_witness :
  wavs (snd (determine_rate "3/4" 10%Q empty_world)) = wavs empty_world.
Proof.
  apply (determine_rate_range "3/4" 10%Q empty_world
           (snd (determine_rate "3/4" 10%Q empty_world))
           (inject_Z 4 / inject_Z 3)%Q eq_refl).
Defined.

(** Malformed rate strings are not reported as invalid rates: they raise.
    A numeral without a slash raises IndexError; a missing number on either
    side of the slash raises ValueError. *)
Theorem determine_rate_malformed (c : N) (duration : Q) (w : world) :
  determine_rate (decimal c) duration w = (Raise IndexError, w)
  /\ determine_rate (decimal c ++ "/") duration w = (Raise ValueError, w)
  /\ determine_rate ("/" ++ decimal c) duration w = (Raise ValueError, w).
Proof.
  assert (Hd : all_digits (decimal c) = true)
    by (unfold decimal; apply all_digits_string_of_uint).
  unfold determine_rate, bind, lift; split; [|split].
  - rewrite (split_on_digits (decimal c) Hd).
    change (getitem [decimal c] 0) with (Ok (decimal c)); cbv beta iota.
    rewrite py_int_decimal; reflexivity.
  - change (decimal c ++ "/")%string
      with (decimal c ++ String "/" EmptyString)%string.
    rewrite (split_on_rate (decimal c) EmptyString Hd eq_refl).
    change (getitem [decimal c; EmptyString] 0) with (Ok (decimal c)); cbv beta iota.
    rewrite py_int_decimal; reflexivity.
  - change ("/" ++ decimal c)%string
      with (EmptyString ++ String "/" (decimal c))%string.
    rewrite (split_on_rate EmptyString (decimal c) eq_refl Hd); reflexivity.
Qed.




(** ** Runs that end before a file is written *)

Lemma invalid_mode_aborts `{Numerics} (mode : Z) (filename : string)
  (sp : speech_parameters) (rate : Q) (bands : Z) (debug : bool) :
  mode < 0 \/ 2 < mode ->
  yields (scrambler mode filename sp rate bands debug) (Raise UnboundLocalError) [].
Proof.
  intros Hmode; unfold scrambler, scrambler_with.
  replace (mode =? 0) with false by (symmetry; apply Z.eqb_neq; lia).
  replace (mode =? 1) with false by (symmetry; apply Z.eqb_neq; lia).
  replace (mode =? 2) with false by (symmetry; apply Z.eqb_neq; lia).
  skip_quiet.
  apply yields_bind_raise, (yields_local None).
Qed.

(** A mode outside 0, 1, 2, which [check_mode] reports with -1, is fatal to
    [scrambler] itself: whatever the other arguments, the run raises
    UnboundLocalError when it formats the mode name, before any file is
    written. *)
Theorem scrambler_invalid_mode `{Numerics} (mode : Z) (filename : string)
  (sp : speech_parameters) (rate : Q) (bands : Z) (debug : bool) (w : world)
  (Hmode : mode < 0 \/ 2 < mode) :
  fst (check_mode mode w) = Ok (-1)
  /\ fst (scrambler mode filename sp rate bands debug w) = Raise UnboundLocalError
  /\ wavs (snd (scrambler mode filename sp rate bands debug w)) = wavs w.
Proof.
  split.
  - unfold check_mode.
    replace ((mode <? 0) || (mode >? 2)) with true; [reflexivity|].
    symmetry; apply orb_true_iff.
    destruct Hmode; [left; apply Z.ltb_lt | right; apply Z.gtb_lt]; lia.
  - destruct (invalid_mode_aborts mode filename sp rate bands debug Hmode w) as [Hq Hw].
    rewrite app_nil_r in Hw; split; assumption.
Qed.

Lemma scrambler_invalid_mode_witness :
  fst (@scrambler sample_numerics 3 "speech.wav"
         {| sp_Fs := 8000; sp_Ts := 1 # 8000; sp_duration := 2 # 8000;
            sp_x := Arr1 [1; -1]%Q; sp_t := Arr1 [0; 2 # 8000]%Q |}
         0%Q 1 false empty_world) = Raise UnboundLocalError.
Proof.
  apply (@scrambler_invalid_mode sample_numerics 3 "speech.wav"
           {| sp_Fs := 8000; sp_Ts := 1 # 8000; sp_duration := 2 # 8000;
              sp_x := Arr1 [1; -1]%Q; sp_t := Arr1 [0; 2 # 8000]%Q |}
           0%Q 1 false empty_world).
  right; lia.
Defined.

Lemma low_rate_aborts `{Numerics} (mode : Z) (filename : string)
  (sp : speech_parameters) (rate : Q) (debug : bool) :
  mode = 0 \/ mode = 1 \/ mode = 2 -> sp_Fs sp <= 5264 ->
  yields (scrambler mode filename sp rate 1 debug) (Raise ValueError) [].
Proof.
  intros Hmode HFs; unfold scrambler, scrambler_with.
  assert (Hlp : generate_lpfilters 1 (sp_Fs sp) = Raise ValueError).
  { rewrite (proj2 (generate_single (Arr1 []) (sp_Fs sp))),
      (lpfilter_refused (sp_Fs sp) HFs); reflexivity. }
  destruct Hmode as [-> | [-> | ->]]; simpl Z.eqb; cbv iota; skip_quiet.
  all: eapply yields_lift_ok; [reflexivity|]; skip_quiet.
  all: eapply yields_lift_ok;
         [exact (proj1 (generate_single (sp_t sp) (sp_Fs sp)))|].
  all: apply yields_lift_raise; exact Hlp.
Qed.

(** With one band and a sample rate of 5264 Hz or less, the low-pass filter
    at the carrier frequency 2632 Hz cannot be designed: the run raises
    ValueError and writes no file, whatever the signal. *)
Theorem scrambler_low_sample_rate `{Numerics} (mode : Z) (filename : string)
  (sp : speech_parameters) (rate : Q) (debug : bool) (w : world)
  (Hmode : mode = 0 \/ mode = 1 \/ mode = 2) (HFs : sp_Fs sp <= 5264) :
  fst (scrambler mode filename sp rate 1 debug w) = Raise ValueError
  /\ wavs (snd (scrambler mode filename sp rate 1 debug w)) = wavs w.
Proof.
  destruct (low_rate_aborts mode filename sp rate debug Hmode HFs w) as [Hq Hw].
  rewrite app_nil_r in Hw; split; assumption.
Qed.

Lemma scrambler_low_sample_rate_witness :
  fst (@scrambler sample_numerics 0 "speech.wav"
         {| sp_Fs := 4000; sp_Ts := 1 # 4000; sp_duration := 2 # 4000;
            sp_x := Arr1 [1; -1]%Q; sp_t := Arr1 [0; 2 # 4000]%Q |}
         0%Q 1 false empty_world) = Raise ValueError.
Proof.
  apply (@scrambler_low_sample_rate sample_numerics 0 "speech.wav"
           {| sp_Fs := 4000; sp_Ts := 1 # 4000; sp_duration := 2 # 4000;
              sp_x := Arr1 [1; -1]%Q; sp_t := Arr1 [0; 2 # 4000]%Q |}
           0%Q false empty_world).
  - left; reflexivity.
  - simpl; lia.
Defined.

(** ** The program as a whole *)

Lemma zero_bands_aborts `{Numerics} (mode : Z) (filename : string)
  (sp : speech_parameters) (rate : Q) (debug : bool) :
  mode = 0 \/ mode = 1 \/ mode = 2 ->
  yields (scrambler mode filename sp rate 0 debug) (Raise IndexError) [].
Proof.
  intros Hmode; unfold scrambler, scrambler_with.
  destruct Hmode as [-> | [-> | ->]]; simpl Z.eqb; cbv iota; skip_quiet.
  all: eapply yields_lift_ok; [reflexivity|]; skip_quiet.
  all: eapply yields_lift_ok; [reflexivity|].
  all: eapply yields_lift_ok; [reflexivity|]; skip_quiet.
  all: apply yields_lift_raise; reflexivity.
Qed.

Lemma determine_rate_quiet (rate_fractional : string) (duration : Q) :
  quiet (determine_rate rate_fractional duration).
Proof.
  intros w; unfold determine_rate, bind, lift.
  destruct (getitem (split_on "/" rate_fractional) 0) as [p0|]; [|reflexivity].
  destruct (py_int p0) as [num_changes|]; [|reflexivity].
  destruct (getitem (split_on "/" rate_fractional) 1) as [p1|]; [|reflexivity].
  destruct (py_int p1) as [seconds|]; [|reflexivity].
  destruct ((num_changes =? 0) || (seconds =? 0)); [reflexivity|].
  destruct (negb _); [reflexivity|].
  destruct (Qle_bool duration _); reflexivity.
Qed.

Lemma check_mode_run (mode : Z) (w : world) :
  exists v w', check_mode mode w = (Ok v, w') /\ wavs w' = wavs w
               /\ ((v = 0 /\ (mode = 0 \/ mode = 1 \/ mode = 2)) \/ v = -1).
Proof.
  unfold check_mode.
  destruct ((mode <? 0) || (mode >? 2)) eqn:E.
  - eexists _, _; split; [reflexivity | split; [reflexivity | right; reflexivity]].
  - apply orb_false_iff in E; destruct E as [E1 E2].
    apply Z.ltb_ge in E1.
    assert (mode <= 2) by (destruct (Z.gtb_spec mode 2); [discriminate | lia]).
    exists 0, w; split; [reflexivity | split; [reflexivity | left; split; lia]].
Qed.

Lemma read_wav_file_Ok (Fs : Z) (x : list Q) (sp : speech_parameters) :
  read_wav_file Fs x = Ok sp ->
  Fs <> 0 /\ sp_Fs sp = Fs
  /\ sp_duration sp = (inject_Z (Z.of_nat (length x)) / inject_Z Fs)%Q.
Proof.
  unfold read_wav_file; destruct (Z.eqb_spec Fs 0) as [|Hnz]; [discriminate|].
  intros E; inversion E; subst; repeat split; assumption.
Qed.

(** [main] leaves files behind only in one configuration: a band count of
    exactly 1, a mode among 0, 1, 2, a sample rate above 5264 Hz and a
    non-empty recording.  With any other arguments it returns or raises
    without having written a file. *)
Theorem main_writes_only_for_one_band `{Numerics} (args : arguments) (Fs : Z)
  (x : list Q) (w : world)
  (Hw : wavs (snd (main args Fs x w)) <> wavs w) :
  arg_band args = 1
  /\ (arg_mode args = 0 \/ arg_mode args = 1 \/ arg_mode args = 2)
  /\ 5264 < Fs
  /\ x <> [].
Proof.
  unfold main, bind in Hw; unfold lift at 1 in Hw.
  destruct (read_wav_file Fs x) as [sp|e] eqn:Hread; [|contradiction].
  destruct (read_wav_file_Ok Fs x sp Hread) as (HFs0 & HFs & _).
  pose proof (determine_rate_quiet (arg_rate args) (sp_duration sp) w) as Hq1.
  destruct (determine_rate (arg_rate args) (sp_duration sp) w) as [[rate|e] w1];
    simpl in Hq1; [|simpl in Hw; congruence].
  destruct (check_mode_run (arg_mode args) w1) as (v & w2 & Hcm & Hq2 & Hv).
  rewrite Hcm in Hw.
  destruct (negb (Qle_bool 0 rate) || (check_bands (arg_band args) <? 0) || (v <? 0))
    eqn:Hbad; [simpl in Hw; congruence|].
  apply orb_false_iff in Hbad; destruct Hbad as [Hbad Hv0].
  apply orb_false_iff in Hbad; destruct Hbad as [_ Hband].
  apply Z.ltb_ge in Hv0, Hband.
  destruct Hv as [[_ Hmode] | ->]; [|lia].
  assert (Hb0 : 0 <= arg_band args)
    by (unfold check_bands in Hband; destruct (Z.ltb_spec (arg_band args) 0); lia).
  assert (Hab : aborts (scrambler (arg_mode args) (arg_file args) sp rate
                          (arg_band args) (negb (arg_debug args =? 0))) ->
                False).
  { intros Hab.
    destruct (aborts_run _ w2 Hab) as [[e He] Hwav].
    destruct (scrambler _ _ _ _ _ _ w2) as [r w3]; simpl in He, Hwav; subst r.
    simpl in Hw; congruence. }
  destruct (Z.eq_dec (arg_band args) 1) as [Hb1|Hb1].
  - rewrite Hb1 in Hab.
    repeat split; try assumption.
    + destruct (Z.lt_ge_cases 5264 Fs) as [|Hlow]; [assumption|].
      exfalso; apply Hab; exists ValueError.
      apply low_rate_aborts; [exact Hmode | rewrite HFs; exact Hlow].
    + intros ->; apply Hab.
      apply (empty_signal_aborts _ _ Fs); exact Hread.
  - exfalso; apply Hab.
    destruct (Z.eq_dec (arg_band args) 0) as [Hz|Hz].
    + rewrite Hz; exists IndexError; apply zero_bands_aborts; exact Hmode.
    + apply scrambler_with_aborts; lia.
Qed.

Lemma main_writes_only_for_one_band_witness :
  arg_band {| arg_mode := 0; arg_file := "speech.wav"; arg_rate := "0/0";
              arg_band := 1; arg_debug := 0 |} = 1
  /\ 5264 < 8000.
Proof.
  destruct (@main_writes_only_for_one_band sample_numerics
              {| arg_mode := 0; arg_file := "speech.wav"; arg_rate := "0/0";
                 arg_band := 1; arg_debug := 0 |}
              8000 [1; -1; 3; 2]%Q empty_world
              ltac:(vm_compute; discriminate))
    as (Hb & _ & HFs & _).
  split; assumption.
Defined.

(** When the recording can be read and the rate string parses, [main]
    answers a rate reported invalid, a negative band count or a mode outside
    0, 1, 2 in one way: it prints the argument error line last, returns 0,
    and never calls [scrambler], so no file is written. *)
Theorem main_rejects_bad_arguments `{Numerics} (args : arguments) (Fs : Z)
  (x : list Q) (w w1 : world) (sp : speech_parameters) (r : Q)
  (Hread : read_wav_file Fs x = Ok sp)
  (Hrate : determine_rate (arg_rate args) (sp_duration sp) w = (Ok r, w1))
  (Hbad : (r < 0)%Q \/ arg_band args < 0 \/ arg_mode args < 0 \/ 2 < arg_mode args) :
  exists (w2 : world) (printed : list line),
    main args Fs x w = (Ok (Some 0), w2)
    /\ wavs w2 = wavs w
    /\ stdout w2 = printed ++ [Text "Argument error detected. Exiting..."].
Proof.
  pose proof (determine_rate_quiet (arg_rate args) (sp_duration sp) w) as Hq1.
  rewrite Hrate in Hq1; simpl in Hq1.
  destruct (check_mode_run (arg_mode args) w1) as (v & w2 & Hcm & Hq2 & Hv).
  unfold main, bind; unfold lift at 1; rewrite Hread, Hrate, Hcm.
  assert (Hcond : negb (Qle_bool 0 r) || (check_bands (arg_band args) <? 0) || (v <? 0)
                  = true).
  { destruct Hbad as [Hr | [Hb | Hm]].
    - replace (Qle_bool 0 r) with false; [reflexivity|].
      symmetry; destruct (Qle_bool 0 r) eqn:E; [|reflexivity].
      apply Qle_bool_iff in E; exfalso; apply (Qlt_irrefl r).
      apply Qlt_le_trans with 0%Q; assumption.
    - unfold check_bands.
      replace (arg_band args <? 0) with true by (symmetry; apply Z.ltb_lt; lia).
      rewrite orb_true_r; reflexivity.
    - destruct Hv as [[_ Hvalid] | ->]; [lia|].
      rewrite orb_true_r; reflexivity. }
  rewrite Hcond.
  eexists _, (stdout w2); split; [reflexivity|]; simpl.
  split; [congruence | reflexivity].
Qed.

Lemma main_rejects_bad_arguments_witness :
  exists (w2 : world) (printed : list line),
    @main sample_numerics
      {| arg_mode := 0; arg_file := "speech.wav"; arg_rate := "3/1";
         arg_band := -2; arg_debug := 0 |}
      8000 [1; -1; 3; 2]%Q empty_world = (Ok (Some 0), w2)
    /\ wavs w2 = wavs empty_world
    /\ stdout w2 = printed ++ [Text "Argument error detected. Exiting..."].
Proof.
  apply (@main_rejects_bad_arguments sample_numerics
           {| arg_mode := 0; arg_file := "speech.wav"; arg_rate := "3/1";
              arg_band := -2; arg_debug := 0 |}
           8000 [1; -1; 3; 2]%Q empty_world
           (snd (determine_rate "3/1" (inject_Z 4 / inject_Z 8000)%Q empty_world))
           {| sp_Fs := 8000; sp_Ts := 1 / inject_Z 8000;
              sp_duration := inject_Z 4 / inject_Z 8000;
              sp_x := Arr1 [1; -1; 3; 2]%Q;
              sp_t := Arr1 (np_linspace0 (inject_Z 4 / inject_Z 8000) 4) |}
           (-1)%Q eq_refl eq_refl).
  left; reflexivity.
Defined.

(** In that one configuration the program runs to the end: with a band
    count of 1, a mode among 0, 1, 2, a sample rate above 5264 Hz, a
    non-empty recording and a rate that [determine_rate] accepts, [main]
    returns None after writing the scrambled and then the descrambled file,
    each with as many samples as the recording. *)
Theorem main_one_band_completes `{Numerics} (args : arguments) (Fs : Z)
  (x : list Q) (w w1 : world) (r : Q)
  (Hband : arg_band args = 1)
  (Hmode : arg_mode args = 0 \/ arg_mode args = 1 \/ arg_mode args = 2)
  (HFs : 5264 < Fs) (Hx : x <> [])
  (Hrate : determine_rate (arg_rate args)
             (inject_Z (Z.of_nat (length x)) / inject_Z Fs)%Q w = (Ok r, w1))
  (Hr : (0 <= r)%Q) :
  exists (w2 : world) (m1 m2 : Q) (scrambled descrambled : list Q),
    main args Fs x w = (Ok None, w2)
    /\ wavs w2 = wavs w ++ [written (arg_file args) "scrambled.wav" Fs m1 scrambled;
                            written (arg_file args) "descrambled.wav" Fs m2 descrambled]
    /\ length scrambled = length x
    /\ length descrambled = length x.
Proof.
  set (c := carrier0 Fs (length x)).
  set (f := lowpass0 Fs).
  assert (Hc : length x = length c) by (symmetry; apply length_carrier0).
  assert (Hs : length (inversion_pass c f x) = length x)
    by (apply length_inversion_pass; exact Hc).
  assert (Hd : length (inversion_pass c f (inversion_pass c f x)) = length x)
    by (rewrite length_inversion_pass; [exact Hs | rewrite Hs; exact Hc]).
  destruct (np_max_nonempty (inversion_pass c f x)) as [m1 Hm1];
    [apply (nonempty_length x); assumption|].
  destruct (np_max_nonempty (inversion_pass c f (inversion_pass c f x))) as [m2 Hm2];
    [apply (nonempty_length x); assumption|].
  pose proof (read_wav_file_ok Fs x ltac:(lia)) as Hread.
  pose proof (determine_rate_quiet (arg_rate args)
                (inject_Z (Z.of_nat (length x)) / inject_Z Fs)%Q w) as Hq1.
  rewrite Hrate in Hq1; simpl in Hq1.
  destruct (check_mode_run (arg_mode args) w1) as (v & w2 & Hcm & Hq2 & Hv).
  assert (Hv0 : v = 0 /\ w2 = w1).
  { unfold check_mode in Hcm.
    replace ((arg_mode args <? 0) || (arg_mode args >? 2)) with false in Hcm.
    - inversion Hcm; split; reflexivity.
    - symmetry; apply orb_false_iff; split; [apply Z.ltb_ge; lia|].
      destruct (Z.gtb_spec (arg_mode args) 2); [lia | reflexivity]. }
  destruct Hv0 as [-> ->].
  destruct (single_band_run (arg_mode args) (arg_file args) Fs x r
              (negb (arg_debug args =? 0)) _ m1 m2 Hmode HFs Hread Hm1 Hm2 w1)
    as [Hq Hw].
  unfold main, bind; unfold lift at 1.
  rewrite Hread; cbn [sp_duration]; rewrite Hrate, Hcm, Hband.
  apply Qle_bool_iff in Hr; rewrite Hr.
  change (negb true || (check_bands 1 <? 0) || (0 <? 0)) with false; cbv beta iota.
  destruct (scrambler _ _ _ _ _ _ w1) as [q w3]; simpl in Hq, Hw; subst q.
  exists w3, m1, m2, (inversion_pass c f x), (inversion_pass c f (inversion_pass c f x)).
  split; [reflexivity|].
  split; [rewrite Hw, Hq1; reflexivity|].
  split; assumption.
Qed.

Lemma main_one_band_completes_witness :
  exists (w2 : world) (m1 m2 : Q) (scrambled descrambled : list Q),
    @main sample_numerics
      {| arg_mode := 0; arg_file := "speech.wav"; arg_rate := "0/0";
         arg_band := 1; arg_debug := 0 |}
      8000 [1; -1; 3; 2]%Q empty_world = (Ok None, w2)
    /\ wavs w2
       = wavs empty_world
         ++ [written "speech.wav" "scrambled.wav" 8000 m1 scrambled;
             written "speech.wav" "descrambled.wav" 8000 m2 descrambled]
    /\ length scrambled = 4%nat
    /\ length descrambled = 4%nat.
Proof.
  apply (@main_one_band_completes sample_numerics
           {| arg_mode := 0; arg_file := "speech.wav"; arg_rate := "0/0";
              arg_band := 1; arg_debug := 0 |}
           8000 [1; -1; 3; 2]%Q empty_world empty_world 0%Q eq_refl
           (or_introl eq_refl) ltac:(lia) ltac:(discriminate) eq_refl).
  discriminate.
Defined.

(** ** The inversion as a filter *)

Lemma biquad_firstn (s : section) (z0 z1 : Q) (x : list Q) (k : nat) :
  biquad s z0 z1 (firstn k x) = firstn k (biquad s z0 z1 x).
Proof.
  revert z0 z1 k; induction x as [|xn x IH]; intros z0 z1 [|k]; simpl;
    try reflexivity.
  rewrite IH; reflexivity.
Qed.

Lemma sosfilt1_firstn (filt : sos) (x : list Q) (k : nat) :
  sosfilt1 filt (firstn k x) = firstn k (sosfilt1 filt x).
Proof.
  unfold sosfilt1; revert x; induction filt as [|s filt IH]; intros x; simpl.
  - reflexivity.
  - rewrite biquad_firstn; apply IH.
Qed.










(** A carrier that starts at 0, as a sine sampled from the instant 0 does,
    costs the first sample: whatever the signal and the filter, the first
    sample [invert] returns is 0. *)
Theorem invert_first_sample (x0 c0 : Q) (x c : list Q) (filt : sos)
  (Hlen : length x = length c) (Hc0 : (c0 == 0)%Q) :
  exists y0 y,
    invert (Arr1 (x0 :: x)) (Arr1 (c0 :: c)) filt = Ok (Arr1 (y0 :: y))
    /\ (y0 == 0)%Q.
Proof.
  assert (Hlen' : length (x0 :: x) = length (c0 :: c)) by (simpl; rewrite Hlen; reflexivity).
  pose proof (invert_waveform (x0 :: x) (c0 :: c) filt Hlen') as E.
  pose proof (sosfilt1_firstn filt (product_samplewise (x0 :: x) (c0 :: c)) 1) as Hcut.
  assert (Hz : all_zero (sosfilt1 filt (firstn 1 (product_samplewise (x0 :: x) (c0 :: c))))).
  { apply sosfilt1_zero; repeat constructor; simpl; rewrite Hc0; ring. }
  rewrite Hcut in Hz.
  destruct (sosfilt1 filt (product_samplewise (x0 :: x) (c0 :: c))) as [|y0 y] eqn:Ey.
  - pose proof (length_sosfilt1 filt (product_samplewise (x0 :: x) (c0 :: c))) as Hl.
    rewrite Ey in Hl; simpl in Hl; discriminate.
  - exists y0, y; split; [exact E|].
    simpl in Hz; inversion Hz; assumption.
Qed.

Lemma invert_first_sample_witness :
  exists y0 y,
    invert (Arr1 [1; -2; 3]%Q) (Arr1 [0; 1 # 2; -1]%Q) (@lowpass0 sample_numerics 8000)
    = Ok (Arr1 (y0 :: y))
    /\ (y0 == 0)%Q.
Proof.
  apply (invert_first_sample 1 0 [-2; 3]%Q [1 # 2; -1]%Q
           (@lowpass0 sample_numerics 8000) eq_refl); reflexivity.
Defined.

(** [bandsplit] returns for no band count: a count of 0 or less divides by
    zero (in [getfilts] for 0, in [bandspec] on the empty list of bands for a
    negative count), and a positive count ends in NameError from [spectrum]
    or in ValueError from a refused filter design. *)
Theorem bandsplit_never_returns `{Numerics} (sig : signal) (num_bands fs : Z) :
  exists e,
    bandsplit sig num_bands fs = Raise e
    /\ (if num_bands <=? 0 then e = ZeroDivisionError
        else e = NameError \/ e = ValueError).
Proof.
  destruct (Z.leb_spec num_bands 0) as [Hn|Hn].
  - exists ZeroDivisionError; split; [|reflexivity].
    unfold bandsplit, getfilts, getfilts_with.
    destruct (Z.eqb_spec num_bands 0) as [->|Hnz]; [reflexivity|].
    rewrite (range_nonpositive num_bands Hn); reflexivity.
  - apply bandsplit_raises; lia.
Qed.
